(** * Solar estimator (BenCaron74/solarapp): the estimation engine of
    [src/App.js] and the mock endpoint of the express server, embedded
    as executable Rocq functions.

    Number model.  A JavaScript number is modelled as an exact rational
    extended with the three IEEE special values the code relies on
    ([Infinity], [-Infinity], [NaN]).  Arithmetic on finite values is
    exact: binary64 rounding, overflow and the sign of zero are not
    modelled.  Division by zero, the arithmetic of the infinities and the
    behaviour of comparisons on [NaN] follow ECMAScript.

    The climate aggregation, whose result depends on the order of a
    running sum, is written over an interface of number operations and
    read at two instances: the exact numbers, and binary64 (the
    primitive floats of Rocq), where every operation rounds as it does
    in the running program.

    Effects.  [handleSubmit] is a function from the component state to
    the component state, in a monad of state and exceptions; the
    collaborators reached through [fetch] are functions from the request
    to the parsed response or an exception. *)

From Stdlib Require Import ZArith QArith Qcanon Qround.
From Stdlib Require Import List String Ascii Bool Lia Lqa Permutation.
From Stdlib Require Import DecimalString.
From Stdlib Require Import Uint63 PrimFloat SpecFloat FloatOps.
Import ListNotations.

Set Implicit Arguments.

(* ================================================================== *)
(** ** JavaScript numbers *)
(* ================================================================== *)

Module JsNum.

Inductive num : Type :=
| Fin (q : Qc)      (* a finite value *)
| PInf              (* Infinity *)
| NInf              (* -Infinity *)
| NaN.

Definition of_Q (q : Q) : num := Fin (Q2Qc q).
Definition of_Z (z : Z) : num := Fin (Q2Qc (inject_Z z)).

(** Sign of an extended value: [Gt] positive, [Lt] negative, [Eq] zero.
    [NaN] is mapped to [Eq]; every operation tests for [NaN] first. *)
Definition sign (x : num) : comparison :=
  match x with
  | Fin a => (a ?= Q2Qc 0)%Qc
  | PInf => Gt
  | NInf => Lt
  | NaN => Eq
  end.

Definition sign_mul (s t : comparison) : comparison :=
  match s, t with
  | Eq, _ | _, Eq => Eq
  | Gt, Gt | Lt, Lt => Gt
  | Gt, Lt | Lt, Gt => Lt
  end.

(** The infinity of a given sign; an undetermined sign (0 * Infinity,
    0 / 0) is [NaN]. *)
Definition inf_of_sign (s : comparison) : num :=
  match s with
  | Gt => PInf
  | Lt => NInf
  | Eq => NaN
  end.

(** [x + y] *)
Definition add (x y : num) : num :=
  match x, y with
  | NaN, _ | _, NaN => NaN
  | Fin a, Fin b => Fin (a + b)
  | PInf, NInf | NInf, PInf => NaN
  | PInf, _ | _, PInf => PInf
  | NInf, _ | _, NInf => NInf
  end.

Definition neg (x : num) : num :=
  match x with
  | Fin a => Fin (- a)
  | PInf => NInf
  | NInf => PInf
  | NaN => NaN
  end.

(** [x - y] *)
Definition sub (x y : num) : num := add x (neg y).

(** [x * y] *)
Definition mul (x y : num) : num :=
  match x, y with
  | NaN, _ | _, NaN => NaN
  | Fin a, Fin b => Fin (a * b)
  | _, _ => inf_of_sign (sign_mul (sign x) (sign y))
  end.

(** [x / y].  A finite value divided by zero is the infinity of the
    dividend's sign, and [0 / 0] is [NaN]. *)
Definition div (x y : num) : num :=
  match x, y with
  | NaN, _ | _, NaN => NaN
  | Fin a, Fin b =>
      if Qc_eq_dec b (Q2Qc 0) then inf_of_sign (a ?= Q2Qc 0)%Qc
      else Fin (a / b)
  | Fin _, _ => Fin (Q2Qc 0)
  | _, Fin b =>
      inf_of_sign (sign_mul (sign x)
                     (match (b ?= Q2Qc 0)%Qc with Lt => Lt | _ => Gt end))
  | _, _ => NaN
  end.

(** Comparison of two numbers; [None] when either is [NaN]. *)
Definition compare (x y : num) : option comparison :=
  match x, y with
  | NaN, _ | _, NaN => None
  | Fin a, Fin b => Some (a ?= b)%Qc
  | PInf, PInf | NInf, NInf => Some Eq
  | PInf, _ | _, NInf => Some Gt
  | NInf, _ | _, PInf => Some Lt
  end.

(** [x > y] *)
Definition gt (x y : num) : bool :=
  match compare x y with Some Gt => true | _ => false end.

(** [x === y] on numbers *)
Definition strict_eq (x y : num) : bool :=
  match compare x y with Some Eq => true | _ => false end.

(** [Math.round]: the nearest integer, ties towards +Infinity. *)
Definition round (x : num) : num :=
  match x with
  | Fin a => of_Z (Qfloor (a + Q2Qc (1 # 2))%Qc)
  | _ => x
  end.

(** [Math.ceil] *)
Definition ceil (x : num) : num :=
  match x with
  | Fin a => of_Z (Qceiling a)
  | _ => x
  end.

(** A view of a number that evaluates to a closed term: numerator and
    denominator of the reduced fraction. *)
Inductive view : Type :=
| VFin (n : Z) (d : positive)
| VPInf | VNInf | VNaN.

Definition observe (x : num) : view :=
  match x with
  | Fin a => VFin (Qnum a) (Qden a)
  | PInf => VPInf
  | NInf => VNInf
  | NaN => VNaN
  end.

End JsNum.

Import JsNum.

Declare Scope js_scope.
Delimit Scope js_scope with js.
Bind Scope js_scope with num.
Infix "+" := add : js_scope.
Infix "-" := sub : js_scope.
Infix "*" := mul : js_scope.
Infix "/" := div : js_scope.

(** Decimal literals of the source. *)
Definition lit (q : Q) : num := of_Q q.

(* ================================================================== *)
(** ** Sizing (App.js, handleSubmit, lines 176-178) *)
(* ================================================================== *)

Definition averageSystemEfficiency : num := lit 0.75.
Definition averageSunHoursPerDay : num := lit 4.

(** The sizing expression, with the two named constants of the source
    as arguments. *)
Definition systemSizeKW_of (annualConsumption sunHours efficiency : num) : num :=
  (annualConsumption / lit 365 / sunHours / efficiency)%js.

(** [const systemSizeKW = parseFloat(annualConsumption) / 365 /
    averageSunHoursPerDay / averageSystemEfficiency].  The argument is
    the value [parseFloat] yields for the text field. *)
Definition systemSizeKW (annualConsumption : num) : num :=
  systemSizeKW_of annualConsumption averageSunHoursPerDay averageSystemEfficiency.

(* ================================================================== *)
(** ** Host built-ins: number formatting and dates *)
(* ================================================================== *)

(** What the embedding takes from the JavaScript host: the local time
    zone adjustment (milliseconds to add to a UTC time value, as a
    function of that value) and [Number::toString] on finite magnitudes
    of at least 10^21, which [toFixed] falls back to and which is
    defined on binary64 digits. *)
Record Host : Type := {
  LocalTZA : Z -> Z;
  NumberToString : Qc -> string
}.

Open Scope string_scope.

Definition Qc_ltb (a b : Qc) : bool :=
  match (a ?= b)%Qc with Lt => true | _ => false end.

Definition Qc_abs (a : Qc) : Qc := if Qc_ltb a (Q2Qc 0) then (- a)%Qc else a.

Fixpoint zeros (k : nat) : string :=
  match k with
  | O => ""
  | S k' => "0" ++ zeros k'
  end.

Definition string_of_nonneg (n : Z) : string :=
  NilZero.string_of_uint (N.to_uint (Z.to_N n)).

Definition pow10 (f : nat) : Z := 10 ^ Z.of_nat f.

(** The integer [n] for which [n / 10^f - a] is as close to zero as
    possible, the larger one when there are two. *)
Definition nearest_scaled (f : nat) (a : Qc) : Z :=
  Qfloor (a * Q2Qc (inject_Z (pow10 f)) + Q2Qc (1 # 2))%Qc.

(** The digits of [n] with a decimal point before the last [f] digits,
    padded with zeros on the left up to [f + 1] digits. *)
Definition fixed_digits (f : nat) (n : Z) : string :=
  let m := string_of_nonneg n in
  let m := zeros (S f - String.length m) ++ m in
  let k := String.length m in
  match f with
  | O => m
  | _ => substring 0 (k - f) m ++ "." ++ substring (k - f) f m
  end.

(** [Number.prototype.toFixed(f)] *)
Definition toFixed (h : Host) (f : nat) (x : num) : string :=
  match x with
  | NaN => "NaN"
  | PInf => "Infinity"
  | NInf => "-Infinity"
  | Fin q =>
      let s := if Qc_ltb q (Q2Qc 0) then "-" else "" in
      let a := Qc_abs q in
      if Qc_ltb a (Q2Qc (inject_Z (10 ^ 21)))
      then s ++ fixed_digits f (nearest_scaled f a)
      else s ++ NumberToString h a
  end.

(** *** Dates (ECMAScript 21.4.1) *)

Definition msPerDay : Z := 86400000.

Definition Day (t : Z) : Z := t / msPerDay.

Definition DayFromYear (y : Z) : Z :=
  365 * (y - 1970) + (y - 1969) / 4 - (y - 1901) / 100 + (y - 1601) / 400.

Definition DaysInYear (y : Z) : Z :=
  if negb (y mod 4 =? 0)%Z then 365
  else if negb (y mod 100 =? 0)%Z then 366
  else if negb (y mod 400 =? 0)%Z then 365
  else 366.

(** The year [y] with [DayFromYear y <= d < DayFromYear (y + 1)]: an
    estimate from the mean length of a year, corrected by one. *)
Definition YearFromDay (d : Z) : Z :=
  let y := (1970 + (400 * d) / 146097)%Z in
  if (d <? DayFromYear y)%Z then (y - 1)%Z
  else if (DayFromYear (y + 1) <=? d)%Z then (y + 1)%Z
  else y.

Definition YearFromTime (t : Z) : Z := YearFromDay (Day t).

Definition InLeapYear (t : Z) : Z :=
  if (DaysInYear (YearFromTime t) =? 366)%Z then 1 else 0.

Definition DayWithinYear (t : Z) : Z := Day t - DayFromYear (YearFromTime t).

Definition MonthFromTime (t : Z) : Z :=
  let d := DayWithinYear t in
  let l := InLeapYear t in
  if (d <? 31)%Z then 0
  else if (d <? 59 + l)%Z then 1
  else if (d <? 90 + l)%Z then 2
  else if (d <? 120 + l)%Z then 3
  else if (d <? 151 + l)%Z then 4
  else if (d <? 181 + l)%Z then 5
  else if (d <? 212 + l)%Z then 6
  else if (d <? 243 + l)%Z then 7
  else if (d <? 273 + l)%Z then 8
  else if (d <? 304 + l)%Z then 9
  else if (d <? 334 + l)%Z then 10
  else 11.

(** [TimeClip]: the time value of [new Date(x)], [None] for an invalid
    date. *)
Definition TimeClip (x : num) : option Z :=
  match x with
  | Fin a =>
      if Qc_ltb (Q2Qc (inject_Z 8640000000000000)) (Qc_abs a) then None
      else Some (Z.quot (Qnum a) (Z.pos (Qden a)))
  | _ => None
  end.

(** [new Date(x).getMonth()]; [None] stands for [NaN]. *)
Definition getMonth (h : Host) (x : num) : option Z :=
  match TimeClip x with
  | Some t => Some (MonthFromTime (t + LocalTZA h t))
  | None => None
  end.

(** A host in UTC.  No example reaches a magnitude of 10^21, for
    which it returns a fixed text. *)
Definition utcHost : Host :=
  {| LocalTZA := fun _ => 0%Z; NumberToString := fun _ => "1e+21" |}.


(* ================================================================== *)
(** ** Incentives (App.js, lines 25-32 and 128-146) *)
(* ================================================================== *)

Inductive incentiveType : Type := rebate | taxCredit.

Record incentive : Type := {
  state : string;
  type : incentiveType;
  amount : num;
  description : string
}.

(** [const incentivesDatabase = [...]] *)
Definition incentivesDatabase : list incentive :=
  [ {| state := "CA"; type := rebate; amount := lit 1000;
       description := "California Solar Initiative Rebate" |};
    {| state := "CA"; type := taxCredit; amount := lit 0.30;
       description := "Federal Solar Investment Tax Credit" |};
    {| state := "NY"; type := rebate; amount := lit 5000;
       description := "NY-Sun Incentive Program" |};
    {| state := "NY"; type := taxCredit; amount := lit 0.25;
       description := "New York State Solar Equipment Tax Credit" |} ].

(** [db.filter(incentive => incentive.state === state)] *)
Definition findIncentives_in (db : list incentive) (st : string) : list incentive :=
  filter (fun i => String.eqb (state i) st) db.

Definition findIncentives (st : string) : list incentive :=
  findIncentives_in incentivesDatabase st.

(** [{ ...incentive, appliedAmount: incentiveAmount }] *)
Record appliedIncentive : Type := {
  source : incentive;
  appliedAmount : num
}.

(** The body of the callback of [applicableIncentives.map]. *)
Definition incentiveAmount (installationCost : num) (i : incentive) : num :=
  match type i with
  | rebate => amount i
  | taxCredit => (installationCost * amount i)%js
  end.

(** [applicableIncentives.map(...)], with the running total that the
    callback updates as the second component. *)
Fixpoint applyIncentives (installationCost : num) (l : list incentive)
    (totalIncentives : num) : list appliedIncentive * num :=
  match l with
  | [] => ([], totalIncentives)
  | i :: rest =>
      let a := incentiveAmount installationCost i in
      let totalIncentives := (totalIncentives + a)%js in
      let (applied, total) := applyIncentives installationCost rest totalIncentives in
      ({| source := i; appliedAmount := a |} :: applied, total)
  end.

Definition calculateIncentives_in (db : list incentive)
    (installationCost : num) (st : string) : list appliedIncentive * num :=
  applyIncentives installationCost (findIncentives_in db st) (lit 0).

Definition calculateIncentives (installationCost : num) (st : string)
    : list appliedIncentive * num :=
  calculateIncentives_in incentivesDatabase installationCost st.

(** The sum of a sequence of numbers. *)
Definition sum (l : list num) : num := fold_right add (lit 0) l.

(* ================================================================== *)
(** ** Cost, savings and payback (App.js, lines 190-195 and 209-210) *)
(* ================================================================== *)

Definition averageCostPerWatt : num := lit 2.77.
Definition averageElectricityRate : num := lit 0.14.
Definition panelWattage : num := lit 350.

(** [systemSizeKW * 1000 * averageCostPerWatt] *)
Definition estimatedCost_of (costPerWatt systemSize : num) : num :=
  (systemSize * lit 1000 * costPerWatt)%js.

(** [annualProduction * averageElectricityRate] *)
Definition annualSavings_of (rate annualProduction : num) : num :=
  (annualProduction * rate)%js.

(** [annualSavings > 0 ? estimatedCost / annualSavings : Infinity] *)
Definition paybackPeriod (estimatedCost annualSavings : num) : num :=
  if gt annualSavings (lit 0) then (estimatedCost / annualSavings)%js else PInf.

(** [estimatedCost - totalIncentives] *)
Definition adjustedCost (estimatedCost totalIncentives : num) : num :=
  (estimatedCost - totalIncentives)%js.

(** [adjustedCost / annualSavings] *)
Definition adjustedPaybackPeriod (adjusted annualSavings : num) : num :=
  (adjusted / annualSavings)%js.

(** [Math.ceil(systemSizeKW * 1000 / panelWattage)] *)
Definition recommendedPanels (systemSize : num) : num :=
  ceil (systemSize * lit 1000 / panelWattage)%js.

(** The figures of one costing pass, for given constants. *)
Record CostFigures : Type := {
  cf_estimatedCost : num;
  cf_annualSavings : num;
  cf_paybackPeriod : num;
  cf_adjustedCost : num;
  cf_adjustedPaybackPeriod : num
}.

Definition costFigures (costPerWatt rate systemSize annualProduction totalIncentives : num)
    : CostFigures :=
  let estimatedCost := estimatedCost_of costPerWatt systemSize in
  let annualSavings := annualSavings_of rate annualProduction in
  let adjusted := adjustedCost estimatedCost totalIncentives in
  {| cf_estimatedCost := estimatedCost;
     cf_annualSavings := annualSavings;
     cf_paybackPeriod := paybackPeriod estimatedCost annualSavings;
     cf_adjustedCost := adjusted;
     cf_adjustedPaybackPeriod := adjustedPaybackPeriod adjusted annualSavings |}.

(* ================================================================== *)
(** ** Exceptions *)
(* ================================================================== *)

Inductive errorName : Type := ErrorN | TypeErrorN | SyntaxErrorN.

Record exn : Type := { kind : errorName; message : string }.

Definition Error (msg : string) : exn := {| kind := ErrorN; message := msg |}.
Definition TypeError (msg : string) : exn := {| kind := TypeErrorN; message := msg |}.

(** Reading property [p] of [undefined]. *)
Definition undefinedProperty (p : string) : exn :=
  TypeError ("Cannot read properties of undefined (reading '" ++ p ++ "')").

(** [ToNumber] of a value that may be [undefined]. *)
Definition toNumber (v : option num) : num :=
  match v with Some x => x | None => NaN end.

Fixpoint mapi_from {A B : Type} (f : A -> nat -> B) (i : nat) (l : list A) : list B :=
  match l with
  | [] => []
  | x :: rest => f x i :: mapi_from f (S i) rest
  end.

(** [l.map((value, index) => f value index)] *)
Definition mapi {A B : Type} (f : A -> nat -> B) (l : list A) : list B :=
  mapi_from f 0 l.

(* ================================================================== *)
(** ** Production data (App.js, lines 183-187 and 213-217) *)
(* ================================================================== *)

Record nrelOutputs : Type := {
  ac_annual : option num;
  ac_monthly : option (list num)
}.

Record nrelData : Type := {
  errors : option (list string);
  outputs : option nrelOutputs
}.

(** [if (nrelData.errors && nrelData.errors.length > 0) throw new
    Error('Error fetching solar data: ' + nrelData.errors.join(', '))] *)
Definition checkErrors (d : nrelData) : exn + unit :=
  match errors d with
  | Some (e :: es) =>
      inl (Error ("Error fetching solar data: " ++ String.concat ", " (e :: es)))
  | _ => inr tt
  end.

(** [nrelData.outputs.ac_annual]; [None] is [undefined]. *)
Definition readAnnual (d : nrelData) : exn + option num :=
  match outputs d with
  | None => inl (undefinedProperty "ac_annual")
  | Some o => inr (ac_annual o)
  end.

Definition monthNames : list string :=
  ["Jan"; "Feb"; "Mar"; "Apr"; "May"; "Jun";
   "Jul"; "Aug"; "Sep"; "Oct"; "Nov"; "Dec"].

(** [{ name: monthNames[index], production: Math.round(value) }] *)
Record chartEntry : Type := {
  name : option string;
  production : num
}.

(** [nrelData.outputs.ac_monthly.map(...)] *)
Definition chartData (d : nrelData) : exn + list chartEntry :=
  match outputs d with
  | None => inl (undefinedProperty "ac_monthly")
  | Some o =>
      match ac_monthly o with
      | None => inl (undefinedProperty "map")
      | Some l =>
          inr (mapi (fun value index =>
                       {| name := nth_error monthNames index;
                          production := round value |}) l)
      end
  end.

(** What the estimation reads from the provider response, in the order
    the source reads it: the error list, the annual figure, the monthly
    series. *)
Definition interpretProduction (d : nrelData) : exn + (option num * list chartEntry) :=
  match checkErrors d with
  | inl e => inl e
  | inr _ =>
      match readAnnual d with
      | inl e => inl e
      | inr annual =>
          match chartData d with
          | inl e => inl e
          | inr chart => inr (annual, chart)
          end
      end
  end.

(* ================================================================== *)
(** ** Number operations: exact and binary64 *)
(* ================================================================== *)

(** The operations the climate aggregation performs on numbers.  The
    aggregation is written once over this interface and read at two
    instances: the exact numbers above, and binary64, where every
    operation rounds. *)
Record Ops (N : Type) : Type := {
  ofZ : Z -> N;                 (* an integer literal *)
  plus : N -> N -> N;           (* x + y *)
  times : N -> N -> N;          (* x * y *)
  over : N -> N -> N;           (* x / y *)
  greater : N -> N -> bool;     (* x > y *)
  exact : N -> num              (* the value a number denotes *)
}.

Definition exactOps : Ops num :=
  {| ofZ := of_Z; plus := add; times := mul; over := div; greater := gt;
     exact := fun x => x |}.

Definition float_of_Z (z : Z) : float :=
  match z with
  | Z0 => PrimFloat.zero
  | Zpos _ => PrimFloat.of_uint63 (Uint63.of_Z z)
  | Zneg p => PrimFloat.opp (PrimFloat.of_uint63 (Uint63.of_Z (Zpos p)))
  end.

(** The rational [m * 2^e]. *)
Definition scaled (m e : Z) : Q :=
  match e with
  | Z0 => inject_Z m
  | Zpos p => inject_Z (m * 2 ^ Zpos p)
  | Zneg p => Qmake m (2 ^ p)
  end.

(** The value of a binary64 number. *)
Definition exact64 (x : float) : num :=
  match Prim2SF x with
  | S754_zero _ => Fin (Q2Qc 0)
  | S754_infinity false => PInf
  | S754_infinity true => NInf
  | S754_nan => NaN
  | S754_finite s m e =>
      Fin (Q2Qc (scaled (if s then Zneg m else Zpos m) e))
  end.

Definition binary64 : Ops float :=
  {| ofZ := float_of_Z;
     plus := PrimFloat.add;
     times := PrimFloat.mul;
     over := PrimFloat.div;
     greater := fun x y => PrimFloat.ltb y x;
     exact := exact64 |}.

(* ================================================================== *)
(** ** Climate aggregation (App.js, lines 278-294) *)
(* ================================================================== *)

(** One element of [historicalData.daily]: [dt], [temp.day], [uvi]. *)
Record dailySample (N : Type) : Type := {
  dt : N;
  temp_day : N;
  uvi : N
}.

(** A value that is a number or a string. *)
Inductive jsval : Type :=
| VNum (n : num)
| VStr (s : string).

Module Acc.
(** [{ temperature: 0, solarRadiation: 0, count: 0 }] *)
Record t (N : Type) : Type := {
  temperature : N;
  solarRadiation : N;
  count : N
}.
Definition zero {N : Type} (o : Ops N) : t N :=
  {| temperature := ofZ o 0; solarRadiation := ofZ o 0; count := ofZ o 0 |}.
End Acc.

Module Row.
(** An element of the array [processHistoricalWeatherData] returns. *)
Record t : Type := {
  month : option string;
  temperature : jsval;
  solarRadiation : jsval
}.
End Row.

(** [a[i]] for an integer index; [None] is [undefined]. *)
Definition index {A : Type} (a : list A) (i : Z) : option A :=
  if (i <? 0)%Z then None else nth_error a (Z.to_nat i).

Fixpoint update_nth {A : Type} (n : nat) (f : A -> A) (a : list A) : list A :=
  match a, n with
  | [], _ => []
  | x :: rest, O => f x :: rest
  | x :: rest, S n' => x :: update_nth n' f rest
  end.

Section Aggregation.

Variable N : Type.
Variable o : Ops N.
Variable h : Host.

(** The three updates of the callback of [dailyData.forEach], on the
    accumulator of the day's month. *)
Definition bump (day : dailySample N) (m : Acc.t N) : Acc.t N :=
  {| Acc.temperature := plus o (Acc.temperature m) (temp_day day);
     Acc.solarRadiation := plus o (Acc.solarRadiation m) (uvi day);
     Acc.count := plus o (Acc.count m) (ofZ o 1) |}.

(** [new Date(day.dt * 1000).getMonth()] *)
Definition monthOf (day : dailySample N) : option Z :=
  getMonth h (exact o (times o (dt day) (ofZ o 1000))).

(** The callback of [dailyData.forEach]: the accumulators after one
    day, or the exception the property access raises when the month is
    not an index of the array. *)
Definition addDay (monthlyData : list (Acc.t N)) (day : dailySample N)
    : exn + list (Acc.t N) :=
  match monthOf day with
  | None => inl (undefinedProperty "temperature")
  | Some month =>
      match index monthlyData month with
      | None => inl (undefinedProperty "temperature")
      | Some _ => inr (update_nth (Z.to_nat month) (bump day) monthlyData)
      end
  end.

(** [dailyData.forEach(...)] *)
Fixpoint forEachDay (dailyData : list (dailySample N))
    (monthlyData : list (Acc.t N)) : exn + list (Acc.t N) :=
  match dailyData with
  | [] => inr monthlyData
  | day :: rest =>
      match addDay monthlyData day with
      | inl e => inl e
      | inr monthlyData' => forEachDay rest monthlyData'
      end
  end.

(** [count > 0 ? (sum / count).toFixed(1) : 0] *)
Definition monthlyMean (total count : N) : jsval :=
  if greater o count (ofZ o 0)
  then VStr (toFixed h 1 (exact o (over o total count)))
  else VNum (lit 0).

Definition summaryRow (m : Acc.t N) (i : nat) : Row.t :=
  {| Row.month := nth_error monthNames i;
     Row.temperature := monthlyMean (Acc.temperature m) (Acc.count m);
     Row.solarRadiation := monthlyMean (Acc.solarRadiation m) (Acc.count m) |}.

Definition processHistoricalWeatherData (dailyData : list (dailySample N))
    : exn + list Row.t :=
  let monthlyData := repeat (Acc.zero o) 12 in
  match forEachDay dailyData monthlyData with
  | inl e => inl e
  | inr monthlyData => inr (mapi summaryRow monthlyData)
  end.

(** *** The summary in the words of the specification *)

(** The timestamp of the sample is a date the host can represent. *)
Definition validDate (day : dailySample N) : bool :=
  match TimeClip (exact o (times o (dt day) (ofZ o 1000))) with
  | Some _ => true
  | None => false
  end.

(** The sample falls in month [i] (0 for January). *)
Definition inMonth (i : nat) (day : dailySample N) : bool :=
  match monthOf day with
  | Some m => Z.eqb m (Z.of_nat i)
  | None => false
  end.

(** The index of the accumulator a sample updates in an array of [n]
    accumulators, when it has one. *)
Definition slotOf (n : nat) (day : dailySample N) : option nat :=
  match monthOf day with
  | Some m =>
      if (0 <=? m)%Z && (m <? Z.of_nat n)%Z then Some (Z.to_nat m) else None
  | None => None
  end.

End Aggregation.

(** The arithmetic mean of a sequence of numbers. *)
Definition mean (l : list num) : num :=
  (sum l / of_Z (Z.of_nat (List.length l)))%js.

(** The mean rendered with one decimal, or the number 0 when there is
    nothing to average. *)
Definition roundedMean (h : Host) (l : list num) : jsval :=
  match l with
  | [] => VNum (lit 0)
  | _ :: _ => VStr (toFixed h 1 (mean l))
  end.

(** The row of month [i] for a sequence of samples. *)
Definition expectedRow (h : Host) (samples : list (dailySample num)) (i : nat)
    : Row.t :=
  {| Row.month := nth_error monthNames i;
     Row.temperature :=
       roundedMean h (map (@temp_day num) (filter (inMonth exactOps h i) samples));
     Row.solarRadiation :=
       roundedMean h (map (@uvi num) (filter (inMonth exactOps h i) samples)) |}.

(* ================================================================== *)
(** ** The region code of an address (App.js, line 204) *)
(* ================================================================== *)

(** [s.split(sep)] for a one-character separator. *)
Fixpoint split (sep : ascii) (s : string) : list string :=
  match s with
  | EmptyString => [EmptyString]
  | String c rest =>
      if Ascii.eqb c sep then EmptyString :: split sep rest
      else match split sep rest with
           | [] => [String c EmptyString]
           | tok :: toks => String c tok :: toks
           end
  end.

(** White space in the ASCII range: tab, line feed, vertical tab, form
    feed, carriage return, space. *)
Definition isWhiteSpace (c : ascii) : bool :=
  let n := nat_of_ascii c in
  Nat.eqb n 32 || (Nat.leb 9 n && Nat.leb n 13).

Fixpoint trimStart (s : string) : string :=
  match s with
  | EmptyString => EmptyString
  | String c rest => if isWhiteSpace c then trimStart rest else s
  end.

Definition reverse (s : string) : string :=
  string_of_list_ascii (rev (list_ascii_of_string s)).

Definition trim (s : string) : string :=
  reverse (trimStart (reverse (trimStart s))).

(** [address.split(',').pop().trim()] *)
Definition stateOfAddress (address : string) : string :=
  trim (last (split "," address) EmptyString).

(* ================================================================== *)
(** ** The component state and the collaborators *)
(* ================================================================== *)

Record geoResult : Type := { lat : string; lon : string }.

Record weatherInfo : Type := {
  w_temperature : num;
  w_description : string;
  w_cloudCover : num
}.

Module Cost.
(** The object passed to [setCostEstimate]. *)
Record t : Type := {
  installationCost : num;
  adjustedInstallationCost : num;
  paybackPeriod : string;
  adjustedPaybackPeriod : string;
  annualSavings : num;
  systemSizeKW : string;
  recommendedPanels : num;
  recommendedSystemSize : string;
  recommendedProduction : num;
  totalIncentives : num
}.
End Cost.

Module St.
(** The [useState] cells [handleSubmit] reads or writes; [None] is
    [null].  [annualConsumption] holds the number [parseFloat] yields
    for the text of the field, [NaN] when it does not start with one. *)
Record t : Type := {
  address : string;
  annualConsumption : num;
  orientation : num;
  tilt : num;
  apiKeyAvailable : bool;
  loading : bool;
  error : string;
  estimate : option num;
  monthlyData : list chartEntry;
  weatherData : option weatherInfo;
  costEstimate : option Cost.t;
  mapCoordinates : option geoResult;
  historicalWeather : option (list Row.t);
  incentives : list appliedIncentive
}.

Definition setLoading (v : bool) (s : t) : t :=
  {| address := address s; annualConsumption := annualConsumption s;
     orientation := orientation s; tilt := tilt s;
     apiKeyAvailable := apiKeyAvailable s; loading := v; error := error s;
     estimate := estimate s; monthlyData := monthlyData s;
     weatherData := weatherData s; costEstimate := costEstimate s;
     mapCoordinates := mapCoordinates s;
     historicalWeather := historicalWeather s; incentives := incentives s |}.

Definition setError (v : string) (s : t) : t :=
  {| address := address s; annualConsumption := annualConsumption s;
     orientation := orientation s; tilt := tilt s;
     apiKeyAvailable := apiKeyAvailable s; loading := loading s; error := v;
     estimate := estimate s; monthlyData := monthlyData s;
     weatherData := weatherData s; costEstimate := costEstimate s;
     mapCoordinates := mapCoordinates s;
     historicalWeather := historicalWeather s; incentives := incentives s |}.

Definition setEstimate (v : option num) (s : t) : t :=
  {| address := address s; annualConsumption := annualConsumption s;
     orientation := orientation s; tilt := tilt s;
     apiKeyAvailable := apiKeyAvailable s; loading := loading s;
     error := error s;
     estimate := v; monthlyData := monthlyData s;
     weatherData := weatherData s; costEstimate := costEstimate s;
     mapCoordinates := mapCoordinates s;
     historicalWeather := historicalWeather s; incentives := incentives s |}.

Definition setMonthlyData (v : list chartEntry) (s : t) : t :=
  {| address := address s; annualConsumption := annualConsumption s;
     orientation := orientation s; tilt := tilt s;
     apiKeyAvailable := apiKeyAvailable s; loading := loading s;
     error := error s;
     estimate := estimate s; monthlyData := v;
     weatherData := weatherData s; costEstimate := costEstimate s;
     mapCoordinates := mapCoordinates s;
     historicalWeather := historicalWeather s; incentives := incentives s |}.

Definition setWeatherData (v : option weatherInfo) (s : t) : t :=
  {| address := address s; annualConsumption := annualConsumption s;
     orientation := orientation s; tilt := tilt s;
     apiKeyAvailable := apiKeyAvailable s; loading := loading s;
     error := error s;
     estimate := estimate s; monthlyData := monthlyData s;
     weatherData := v; costEstimate := costEstimate s;
     mapCoordinates := mapCoordinates s;
     historicalWeather := historicalWeather s; incentives := incentives s |}.

Definition setCostEstimate (v : option Cost.t) (s : t) : t :=
  {| address := address s; annualConsumption := annualConsumption s;
     orientation := orientation s; tilt := tilt s;
     apiKeyAvailable := apiKeyAvailable s; loading := loading s;
     error := error s;
     estimate := estimate s; monthlyData := monthlyData s;
     weatherData := weatherData s; costEstimate := v;
     mapCoordinates := mapCoordinates s;
     historicalWeather := historicalWeather s; incentives := incentives s |}.

Definition setMapCoordinates (v : option geoResult) (s : t) : t :=
  {| address := address s; annualConsumption := annualConsumption s;
     orientation := orientation s; tilt := tilt s;
     apiKeyAvailable := apiKeyAvailable s; loading := loading s;
     error := error s;
     estimate := estimate s; monthlyData := monthlyData s;
     weatherData := weatherData s; costEstimate := costEstimate s;
     mapCoordinates := v;
     historicalWeather := historicalWeather s; incentives := incentives s |}.

Definition setHistoricalWeather (v : option (list Row.t)) (s : t) : t :=
  {| address := address s; annualConsumption := annualConsumption s;
     orientation := orientation s; tilt := tilt s;
     apiKeyAvailable := apiKeyAvailable s; loading := loading s;
     error := error s;
     estimate := estimate s; monthlyData := monthlyData s;
     weatherData := weatherData s; costEstimate := costEstimate s;
     mapCoordinates := mapCoordinates s;
     historicalWeather := v; incentives := incentives s |}.

Definition setIncentives (v : list appliedIncentive) (s : t) : t :=
  {| address := address s; annualConsumption := annualConsumption s;
     orientation := orientation s; tilt := tilt s;
     apiKeyAvailable := apiKeyAvailable s; loading := loading s;
     error := error s;
     estimate := estimate s; monthlyData := monthlyData s;
     weatherData := weatherData s; costEstimate := costEstimate s;
     mapCoordinates := mapCoordinates s;
     historicalWeather := historicalWeather s; incentives := v |}.
End St.

(** The query of the PVWatts request. *)
Record pvwattsRequest : Type := {
  q_lat : string;
  q_lon : string;
  system_capacity : num;
  azimuth : num;
  q_tilt : num
}.

(** The current-weather response: [main.temp], the [description]s of
    [weather], [clouds.all]; [None] for an absent object. *)
Record weatherResponse : Type := {
  main_temp : option num;
  weather : option (list string);
  clouds_all : option num
}.

Record historicalResponse : Type := {
  daily : option (list (dailySample num))
}.

(** The collaborators: what [fetch] followed by [json()] yields for
    each request, an exception when either fails. *)
Record Env : Type := {
  geocode : string -> exn + list geoResult;
  pvwatts : pvwattsRequest -> exn + nrelData;
  currentWeather : string -> string -> exn + weatherResponse;
  oneCall : string -> string -> exn + historicalResponse
}.

(* ================================================================== *)
(** ** A monad for state and exceptions *)
(* ================================================================== *)

Definition M (A : Type) : Type := St.t -> (exn + A) * St.t.

Definition ret {A : Type} (a : A) : M A := fun s => (inr a, s).

Definition bind {A B : Type} (m : M A) (k : A -> M B) : M B :=
  fun s =>
    match m s with
    | (inl e, s') => (inl e, s')
    | (inr a, s') => k a s'
    end.

Definition throw {A : Type} (e : exn) : M A := fun s => (inl e, s).

(** A computation that touches no state. *)
Definition lift {A : Type} (r : exn + A) : M A := fun s => (r, s).

(** A call of a state setter. *)
Definition set (f : St.t -> St.t) : M unit := fun s => (inr tt, f s).

(** [try { m } catch (e) { handler e }] *)
Definition try_catch {A : Type} (m : M A) (handler : exn -> M A) : M A :=
  fun s =>
    match m s with
    | (inl e, s') => handler e s'
    | (inr a, s') => (inr a, s')
    end.

(** [try { m } finally { f }] for a [finally] block that cannot throw. *)
Definition try_finally {A : Type} (m : M A) (f : St.t -> St.t) : M A :=
  fun s => let (r, s') := m s in (r, f s').

Notation "x <- m ;; k" := (bind m (fun x => k))
  (at level 61, m at next level, right associativity).
Notation "m ;;; k" := (bind m (fun _ => k))
  (at level 61, right associativity).

(* ================================================================== *)
(** ** handleSubmit (App.js, lines 148-276) *)
(* ================================================================== *)

(** Lines 154-162: every result cell is cleared before the attempt. *)
Definition resetResults (s : St.t) : St.t :=
  St.setIncentives []
    (St.setHistoricalWeather None
       (St.setMapCoordinates None
          (St.setCostEstimate None
             (St.setWeatherData None
                (St.setMonthlyData []
                   (St.setEstimate None
                      (St.setError "" (St.setLoading true s)))))))).

(** Lines 220-231. *)
Definition costEstimateObject (h : Host)
    (estimatedCost adjusted payback adjustedPayback annualSavings
     systemSize panels annualProduction totalIncentives : num) : Cost.t :=
  {| Cost.installationCost := round estimatedCost;
     Cost.adjustedInstallationCost := round adjusted;
     Cost.paybackPeriod :=
       if strict_eq payback PInf then "Infinity" else toFixed h 1 payback;
     Cost.adjustedPaybackPeriod :=
       if strict_eq adjustedPayback PInf then "Infinity"
       else toFixed h 1 adjustedPayback;
     Cost.annualSavings := round annualSavings;
     Cost.systemSizeKW := toFixed h 2 systemSize;
     Cost.recommendedPanels := panels;
     Cost.recommendedSystemSize := toFixed h 2 systemSize;
     Cost.recommendedProduction := round annualProduction;
     Cost.totalIncentives := round totalIncentives |}.

(** Lines 234-251: the current weather, every failure absorbed. *)
Definition weatherBranch (env : Env) (g : geoResult) : M unit :=
  try_catch
    (w <- lift (currentWeather env (lat g) (lon g)) ;;
     match main_temp w, weather w, clouds_all w with
     | Some temp, Some (d :: _), Some all =>
         set (St.setWeatherData
                (Some {| w_temperature := temp; w_description := d;
                         w_cloudCover := all |}))
     | _, _, _ => set (St.setWeatherData None)
     end)
    (fun _ => set (St.setWeatherData None)).

(** Lines 254-268: the historical weather, every failure absorbed. *)
Definition historicalBranch (h : Host) (env : Env) (g : geoResult) : M unit :=
  try_catch
    (hd <- lift (oneCall env (lat g) (lon g)) ;;
     match daily hd with
     | Some d =>
         rows <- lift (processHistoricalWeatherData exactOps h d) ;;
         set (St.setHistoricalWeather (Some rows))
     | None => set (St.setHistoricalWeather None)
     end)
    (fun _ => set (St.setHistoricalWeather None)).

(** Lines 165-268: the body of the outer [try]. *)
Definition estimation (h : Host) (env : Env)
    (address : string) (annualConsumption orientation tilt : num) : M unit :=
  geocodeData <- lift (geocode env address) ;;
  match geocodeData with
  | [] => throw (Error "Unable to find coordinates for the given address")
  | g :: _ =>
      set (St.setMapCoordinates (Some g)) ;;;
      let systemSize := systemSizeKW annualConsumption in
      nrel <- lift (pvwatts env {| q_lat := lat g; q_lon := lon g;
                                    system_capacity := systemSize;
                                    azimuth := orientation;
                                    q_tilt := tilt |}) ;;
      lift (checkErrors nrel) ;;;
      annual <- lift (readAnnual nrel) ;;
      let annualProduction := toNumber annual in
      let estimatedCost := estimatedCost_of averageCostPerWatt systemSize in
      let annualSavings := annualSavings_of averageElectricityRate annualProduction in
      let payback := paybackPeriod estimatedCost annualSavings in
      set (St.setEstimate (Some (round annualProduction))) ;;;
      let panels := recommendedPanels systemSize in
      let st := stateOfAddress address in
      let (appliedIncentives, totalIncentives) :=
        calculateIncentives estimatedCost st in
      set (St.setIncentives appliedIncentives) ;;;
      let adjusted := adjustedCost estimatedCost totalIncentives in
      let adjustedPayback := adjustedPaybackPeriod adjusted annualSavings in
      chart <- lift (chartData nrel) ;;
      set (St.setMonthlyData chart) ;;;
      set (St.setCostEstimate
             (Some (costEstimateObject h estimatedCost adjusted payback
                      adjustedPayback annualSavings systemSize panels
                      annualProduction totalIncentives))) ;;;
      weatherBranch env g ;;;
      historicalBranch h env g
  end.

(** [err.message || 'Failed to estimate solar production. Please try
    again.'] *)
Definition errorText (err : exn) : string :=
  if String.eqb (message err) "" then
    "Failed to estimate solar production. Please try again."
  else message err.

Definition handleSubmit (h : Host) (env : Env) (s : St.t) : St.t :=
  if negb (St.apiKeyAvailable s) then
    St.setError "Cannot proceed without API keys." s
  else
    snd (try_finally
           (try_catch
              (estimation h env (St.address s) (St.annualConsumption s)
                 (St.orientation s) (St.tilt s))
              (fun err => set (St.setError (errorText err))))
           (St.setLoading false)
           (resetResults s)).

(** The request [handleSubmit] sends to PVWatts for the first geocoding
    result [g]. *)
Definition requestOf (s : St.t) (g : geoResult) : pvwattsRequest :=
  {| q_lat := lat g; q_lon := lon g;
     system_capacity := systemSizeKW (St.annualConsumption s);
     azimuth := St.orientation s;
     q_tilt := St.tilt s |}.

(** A failure before the annual figure is read: in geocoding, in the
    production request, on an error list, or on an absent [outputs]
    object. *)
Inductive earlyFailure (env : Env) (s : St.t) : exn -> Prop :=
| fail_geocode e :
    geocode env (St.address s) = inl e -> earlyFailure env s e
| fail_not_found :
    geocode env (St.address s) = inr [] ->
    earlyFailure env s (Error "Unable to find coordinates for the given address")
| fail_request g gs e :
    geocode env (St.address s) = inr (g :: gs) ->
    pvwatts env (requestOf s g) = inl e ->
    earlyFailure env s e
| fail_errors g gs d e :
    geocode env (St.address s) = inr (g :: gs) ->
    pvwatts env (requestOf s g) = inr d ->
    checkErrors d = inl e ->
    earlyFailure env s e
| fail_outputs g gs d e :
    geocode env (St.address s) = inr (g :: gs) ->
    pvwatts env (requestOf s g) = inr d ->
    checkErrors d = inr tt ->
    readAnnual d = inl e ->
    earlyFailure env s e.

(** The estimation failed: an error message is shown. *)
Definition failed (s : St.t) : bool := negb (String.eqb (St.error s) "").

(* ================================================================== *)
(** ** The mock endpoint of the express server (POST /api/estimate) *)
(* ================================================================== *)

Module Server.

(** [const { address, roofArea } = req.body] *)
Record request : Type := { address : string; roofArea : num }.

Record response : Type := { production : num }.

(** The handler, given the value [Math.random()] returns, a number
    in [0, 1):
    [Math.round(Math.random() * 5000 + 2000)]. *)
Definition estimate (random : num) (req : request) : response :=
  {| production := round (random * lit 5000 + lit 2000)%js |}.

End Server.

(* ================================================================== *)
(** ** Concrete inputs *)
(* ================================================================== *)

Definition sacramento : geoResult := {| lat := "38.5816"; lon := "-121.4944" |}.

Definition twelveMonths : list num :=
  map lit [600.4; 720.5; 1010.2; 1190.9; 1320; 1380.6;
           1400.1; 1310.7; 1150.3; 930.8; 680.5; 560.2]%Q.

(** A well-formed PVWatts response. *)
Definition goodResponse (annual : Q) : nrelData :=
  {| errors := None;
     outputs := Some {| ac_annual := Some (lit annual);
                        ac_monthly := Some twelveMonths |} |}.

(** A response that has the annual figure and no monthly series. *)
Definition noMonthlyResponse : nrelData :=
  {| errors := None;
     outputs := Some {| ac_annual := Some (lit 12000); ac_monthly := None |} |}.

(** A response whose monthly series has five values. *)
Definition fiveMonthsResponse : nrelData :=
  {| errors := None;
     outputs := Some {| ac_annual := Some (lit 5000);
                        ac_monthly := Some (map lit [1; 2; 3; 4; 5]%Q) |} |}.

(** Three days of January 2024 and one of July 2024 (UTC noon). *)
Definition fourDays : list (dailySample num) :=
  [ {| dt := lit 1704110400; temp_day := lit 10.1; uvi := lit 2 |};
    {| dt := lit 1704196800; temp_day := lit 11.2; uvi := lit 2.5 |};
    {| dt := lit 1720008000; temp_day := lit 31.5; uvi := lit 9.3 |};
    {| dt := lit 1704283200; temp_day := lit 12.5; uvi := lit 3 |} ].

(** Four days of January 2024 (UTC noon) with temperatures 0.1, 0.2,
    0.3 and 0.4, as binary64 numbers. *)
#[warnings="-inexact-float"] Definition tieDays : list (dailySample float) :=
  [ {| dt := 1704110400%float; temp_day := 0.1%float; uvi := 1%float |};
    {| dt := 1704196800%float; temp_day := 0.2%float; uvi := 1%float |};
    {| dt := 1704283200%float; temp_day := 0.3%float; uvi := 1%float |};
    {| dt := 1704369600%float; temp_day := 0.4%float; uvi := 1%float |} ].

(** A day of July 2024, as binary64 numbers. *)
#[warnings="-inexact-float"] Definition julyDay : dailySample float :=
  {| dt := 1720008000%float; temp_day := 31.5%float; uvi := 9.3%float |}.

(** Collaborators that answer every request: the geocoder finds the
    address, PVWatts returns [d], the current weather cannot be
    fetched, the historical weather has [fourDays]. *)
Definition envWith (d : nrelData) : Env :=
  {| geocode := fun _ => inr [sacramento];
     pvwatts := fun _ => inr d;
     currentWeather := fun _ _ => inl (TypeError "Failed to fetch");
     oneCall := fun _ _ => inr {| daily := Some fourDays |} |}.

(** The state of a freshly mounted component after the form is filled
    in. *)
Definition filledForm (address : string) (annualConsumption : num) : St.t :=
  {| St.address := address;
     St.annualConsumption := annualConsumption;
     St.orientation := lit 180;
     St.tilt := lit 20;
     St.apiKeyAvailable := true;
     St.loading := false;
     St.error := "";
     St.estimate := None;
     St.monthlyData := [];
     St.weatherData := None;
     St.costEstimate := None;
     St.mapCoordinates := None;
     St.historicalWeather := None;
     St.incentives := [] |}.

(* ================================================================== *)
(** ** The component at mount (App.js, lines 78-94 and 121-126) *)
(* ================================================================== *)

(** A value of [process.env] is truthy: defined and not empty. *)
Definition truthy (v : option string) : bool :=
  match v with
  | Some s => negb (String.eqb s "")
  | None => false
  end.

Definition setApiKeyAvailable (v : bool) (s : St.t) : St.t :=
  {| St.address := St.address s;
     St.annualConsumption := St.annualConsumption s;
     St.orientation := St.orientation s; St.tilt := St.tilt s;
     St.apiKeyAvailable := v; St.loading := St.loading s;
     St.error := St.error s;
     St.estimate := St.estimate s; St.monthlyData := St.monthlyData s;
     St.weatherData := St.weatherData s; St.costEstimate := St.costEstimate s;
     St.mapCoordinates := St.mapCoordinates s;
     St.historicalWeather := St.historicalWeather s;
     St.incentives := St.incentives s |}.

(** The initial values of the [useState] cells.  The consumption field
    is empty, and [parseFloat('')] is [NaN]. *)
Definition initialState : St.t :=
  {| St.address := "";
     St.annualConsumption := NaN;
     St.orientation := lit 180;
     St.tilt := lit 20;
     St.apiKeyAvailable := true;
     St.loading := false;
     St.error := "";
     St.estimate := None;
     St.monthlyData := [];
     St.weatherData := None;
     St.costEstimate := None;
     St.mapCoordinates := None;
     St.historicalWeather := None;
     St.incentives := [] |}.

(** The effect of [useEffect(..., [])], given the two keys of
    [process.env]. *)
Definition mountEffect (nrelKey openWeatherKey : option string) (s : St.t) : St.t :=
  if negb (truthy nrelKey) || negb (truthy openWeatherKey) then
    St.setError
      "API key is not available. Please check your environment configuration."
      (setApiKeyAvailable false s)
  else s.

(* ================================================================== *)
(** ** The three-step form (App.js, lines 92-95, 329-415, 441-454) *)
(* ================================================================== *)

Definition totalSteps : Z := 3.

Inductive control : Type := PreviousButton | NextButton | SubmitButton.

(** Which of the three buttons is on the page:
    [currentStep > 1 && Previous],
    [currentStep < totalSteps ? Next : Submit]. *)
Definition rendered (currentStep : Z) (c : control) : bool :=
  match c with
  | PreviousButton => (1 <? currentStep)%Z
  | NextButton => (currentStep <? totalSteps)%Z
  | SubmitButton => negb (currentStep <? totalSteps)%Z
  end.

(** The step after a click: [step => step - 1], [step => step + 1];
    the submit button leaves it, and so does a button that is not on
    the page. *)
Definition click (currentStep : Z) (c : control) : Z :=
  if rendered currentStep c then
    match c with
    | PreviousButton => (currentStep - 1)%Z
    | NextButton => (currentStep + 1)%Z
    | SubmitButton => currentStep
    end
  else currentStep.

Inductive stepContent : Type := AddressField | SystemDetails | ReviewInputs.

(** [renderStep]: the [switch] on [currentStep]; [None] is the [null]
    of the default case. *)
Definition renderStep (currentStep : Z) : option stepContent :=
  if (currentStep =? 1)%Z then Some AddressField
  else if (currentStep =? 2)%Z then Some SystemDetails
  else if (currentStep =? 3)%Z then Some ReviewInputs
  else None.

(* ================================================================== *)
(** ** What the component shows (App.js, lines 34-35 and 417-563) *)
(* ================================================================== *)

(** The payback lines of the cost card:
    [p === 'Infinity' ? 'N/A (no savings calculated)' : `${p} years`]. *)
Definition paybackText (p : string) : string :=
  if String.eqb p "Infinity" then "N/A (no savings calculated)"
  else p ++ " years".

(** [AddressMap] returns [null] when [!lat || !lon]. *)
Definition addressMap (g : geoResult) : option geoResult :=
  if String.eqb (lat g) "" || String.eqb (lon g) "" then None else Some g.

(** The results card and the blocks inside it; [None], or the empty
    list, for a block that is not rendered. *)
Record resultsCard : Type := {
  shownEstimate : num;
  shownChart : list chartEntry;
  shownMap : option geoResult;
  shownWeather : option weatherInfo;
  shownCost : option Cost.t;
  shownPayback : option (string * string);
  shownIncentives : list (string * num);
  shownHistorical : option (list Row.t)
}.

Inductive screen : Type :=
| KeysMissing
| Page (shownError : option string) (card : option resultsCard).

Definition render (s : St.t) : screen :=
  if negb (St.apiKeyAvailable s) then KeysMissing
  else
    Page (if String.eqb (St.error s) "" then None else Some (St.error s))
         (match St.estimate s with
          | None => None
          | Some e =>
              Some {| shownEstimate := e;
                      shownChart := St.monthlyData s;
                      shownMap :=
                        match St.mapCoordinates s with
                        | Some g => addressMap g
                        | None => None
                        end;
                      shownWeather := St.weatherData s;
                      shownCost := St.costEstimate s;
                      shownPayback :=
                        option_map
                          (fun c => (paybackText (Cost.paybackPeriod c),
                                     paybackText (Cost.adjustedPaybackPeriod c)))
                          (St.costEstimate s);
                      shownIncentives :=
                        map (fun a => (description (source a),
                                       round (appliedAmount a)))
                            (St.incentives s);
                      shownHistorical := St.historicalWeather s |}
          end).

(* ================================================================== *)
(** ** Notions used to state properties of [handleSubmit] *)
(* ================================================================== *)

(** The cells [handleSubmit] only reads. *)
Definition inputsOf (s : St.t) : string * num * num * num * bool :=
  (St.address s, St.annualConsumption s, St.orientation s, St.tilt s,
   St.apiKeyAvailable s).

(** A computation writes none of them. *)
Definition preserves {A : Type} (m : M A) : Prop :=
  forall s, inputsOf (snd (m s)) = inputsOf s.

(** The cells the mandatory path writes. *)
Definition mandatoryOf (s : St.t) :=
  (St.error s, St.loading s, St.estimate s, St.monthlyData s,
   St.costEstimate s, St.incentives s, St.mapCoordinates s).

(** What the weather block stores for the location [g]. *)
Definition weatherResult (env : Env) (g : geoResult) : option weatherInfo :=
  match currentWeather env (lat g) (lon g) with
  | inr w =>
      match main_temp w, weather w, clouds_all w with
      | Some temp, Some (d :: _), Some all =>
          Some {| w_temperature := temp; w_description := d;
                  w_cloudCover := all |}
      | _, _, _ => None
      end
  | inl _ => None
  end.

(** What the historical block stores for the location [g]. *)
Definition historicalResult (h : Host) (env : Env) (g : geoResult)
    : option (list Row.t) :=
  match oneCall env (lat g) (lon g) with
  | inr hd =>
      match daily hd with
      | Some d =>
          match processHistoricalWeatherData exactOps h d with
          | inr rows => Some rows
          | inl _ => None
          end
      | None => None
      end
  | inl _ => None
  end.

(** The run fails at the monthly series, after the annual figure was
    read. *)
Definition lateFailure (env : Env) (s : St.t) (e : exn) : Prop :=
  exists g gs d annual,
    geocode env (St.address s) = inr (g :: gs)
    /\ pvwatts env (requestOf s g) = inr d
    /\ checkErrors d = inr tt
    /\ readAnnual d = inr annual
    /\ chartData d = inl e.

(** Every mandatory step of the run succeeds. *)
Definition completes (env : Env) (s : St.t) : Prop :=
  exists g gs d annual chart,
    geocode env (St.address s) = inr (g :: gs)
    /\ pvwatts env (requestOf s g) = inr d
    /\ interpretProduction d = inr (annual, chart).

(** A string has no character [c]. *)
Fixpoint lacks (c : ascii) (s : string) : bool :=
  match s with
  | EmptyString => true
  | String x rest => negb (Ascii.eqb x c) && lacks c rest
  end.

(** A string does not begin with white space. *)
Definition startsClean (s : string) : bool :=
  match s with
  | EmptyString => true
  | String c _ => negb (isWhiteSpace c)
  end.

(* ================================================================== *)
(** * Properties *)
(* ================================================================== *)

(** ** Arithmetic of the number model *)

Local Open Scope Qc_scope.

Lemma Qclt_compare (a b : Qc) : (a ?= b) = Lt <-> a < b.
Proof. symmetry. apply Qclt_alt. Qed.

Lemma Qcgt_compare (a b : Qc) : (a ?= b) = Gt <-> b < a.
Proof. symmetry. apply Qcgt_alt. Qed.

Lemma Qceq_compare (a b : Qc) : (a ?= b) = Eq <-> a = b.
Proof. symmetry. apply Qceq_alt. Qed.

Lemma Qc_ltb_spec (a b : Qc) : Qc_ltb a b = true <-> a < b.
Proof.
  unfold Qc_ltb. rewrite <- Qclt_compare.
  destruct (a ?= b); split; congruence.
Qed.

Lemma div_fin (a b : Qc) : b <> Q2Qc 0 -> (Fin a / Fin b)%js = Fin (a / b).
Proof.
  intros Hb. unfold div. destruct (Qc_eq_dec b (Q2Qc 0)); [contradiction | reflexivity].
Qed.

Lemma gt_fin (a b : Qc) : gt (Fin a) (Fin b) = true <-> b < a.
Proof.
  unfold gt, compare. rewrite <- Qcgt_compare.
  destruct (a ?= b); split; congruence.
Qed.

Lemma Qc_pos_neq0 (a : Qc) : Q2Qc 0 < a -> a <> Q2Qc 0.
Proof. intros H E. rewrite E in H. exact (Qclt_not_eq _ _ H eq_refl). Qed.

Lemma Qcinv_pos (a : Qc) : Q2Qc 0 < a -> Q2Qc 0 < / a.
Proof.
  unfold Qclt. simpl. intros H. rewrite Qred_correct.
  apply Qinv_lt_0_compat. exact H.
Qed.

Lemma Qcdiv_pos (a b : Qc) : Q2Qc 0 < a -> Q2Qc 0 < b -> Q2Qc 0 < a / b.
Proof.
  intros Ha Hb. unfold Qcdiv.
  replace (Q2Qc 0) with (Q2Qc 0 * / b) by ring.
  apply Qcmult_lt_compat_r; [apply Qcinv_pos; exact Hb | exact Ha].
Qed.

Lemma Qcdiv_lt_compat_r (a b c : Qc) : Q2Qc 0 < c -> a < b -> a / c < b / c.
Proof.
  intros Hc Hab. unfold Qcdiv.
  apply Qcmult_lt_compat_r; [apply Qcinv_pos; exact Hc | exact Hab].
Qed.

Lemma Qcinv_lt_contravar (a b : Qc) : Q2Qc 0 < a -> a < b -> / b < / a.
Proof.
  unfold Qclt. simpl. intros Ha Hab. rewrite !Qred_correct.
  assert (Hb : (0 < b)%Q) by (eapply Qlt_trans; eassumption).
  exact (proj1 (Qinv_lt_contravar a b Ha Hb) Hab).
Qed.

Lemma Qcdiv_lt_compat_l (a b c : Qc) :
  Q2Qc 0 < a -> Q2Qc 0 < b -> b < c -> a / c < a / b.
Proof.
  intros Ha Hb Hbc. unfold Qcdiv.
  rewrite (Qcmult_comm a (/ c)), (Qcmult_comm a (/ b)).
  apply Qcmult_lt_compat_r; [exact Ha | apply Qcinv_lt_contravar; assumption].
Qed.

Lemma Q2Qc_pos (q : Q) : (0 < q)%Q -> Q2Qc 0 < Q2Qc q.
Proof. intros H. unfold Qclt. simpl. rewrite Qred_correct. exact H. Qed.

(** ** Number formatting and dates *)

Example toFixed_examples :
  toFixed utcHost 1 (lit 15.05) = "15.1"
  /\ toFixed utcHost 1 (lit 0.25) = "0.3"
  /\ toFixed utcHost 1 (lit (-0.04)) = "-0.0"
  /\ toFixed utcHost 2 (lit 9.1324) = "9.13"
  /\ toFixed utcHost 2 (lit 0) = "0.00"
  /\ toFixed utcHost 0 (lit 12.5) = "13"
  /\ toFixed utcHost 1 NInf = "-Infinity".
Proof. vm_compute. repeat split. Qed.

(** The year computed from a day number is the one the standard
    defines: the largest [y] whose first day is not after the day. *)
Lemma YearFromDay_spec (d : Z) :
  (DayFromYear (YearFromDay d) <= d < DayFromYear (YearFromDay d + 1))%Z.
Proof.
  unfold YearFromDay.
  set (y := (1970 + 400 * d / 146097)%Z).
  assert (B : (DayFromYear (y - 1) <= d < DayFromYear (y + 2))%Z).
  { unfold DayFromYear, y. Z.div_mod_to_equations. lia. }
  destruct (d <? DayFromYear y)%Z eqn:L1.
  - apply Z.ltb_lt in L1. replace (y - 1 + 1)%Z with y by lia. lia.
  - apply Z.ltb_ge in L1.
    destruct (DayFromYear (y + 1) <=? d)%Z eqn:L2.
    + apply Z.leb_le in L2. replace (y + 1 + 1)%Z with (y + 2)%Z by lia. lia.
    + apply Z.leb_gt in L2. lia.
Qed.

Lemma DayFromYear_step (y : Z) :
  (DayFromYear (y + 1) - DayFromYear y = DaysInYear y)%Z.
Proof.
  unfold DayFromYear, DaysInYear.
  destruct (y mod 4 =? 0)%Z eqn:E4; cbn [negb];
    [ destruct (y mod 100 =? 0)%Z eqn:E100; cbn [negb];
      [ destruct (y mod 400 =? 0)%Z eqn:E400; cbn [negb] | ] | ];
    rewrite ?Z.eqb_eq, ?Z.eqb_neq in *;
    Z.div_mod_to_equations; lia.
Qed.

Lemma DayWithinYear_range (t : Z) :
  (0 <= DayWithinYear t < DaysInYear (YearFromTime t))%Z.
Proof.
  unfold DayWithinYear, YearFromTime.
  pose proof (YearFromDay_spec (Day t)) as S.
  pose proof (DayFromYear_step (YearFromDay (Day t))) as D.
  lia.
Qed.

(** 14 November 2023, the epoch, the millisecond before it, 29 February
    and 1 March 2000, and a time value out of range. *)
Example getMonth_examples :
  getMonth utcHost (of_Z 1700000000 * of_Z 1000)%js = Some 10%Z
  /\ getMonth utcHost (of_Z 0) = Some 0%Z
  /\ getMonth utcHost (of_Z (-1)) = Some 11%Z
  /\ getMonth utcHost (of_Z 951782400000) = Some 1%Z
  /\ getMonth utcHost (of_Z 951868800000) = Some 2%Z
  /\ getMonth utcHost (of_Z 8640000000000001) = None
  /\ getMonth utcHost NaN = None.
Proof. vm_compute. repeat split. Qed.

Example stateOfAddress_examples :
  stateOfAddress "1 Capitol Mall, Sacramento,  CA  " = "CA"
  /\ stateOfAddress "nocomma" = "nocomma"
  /\ stateOfAddress "a,b," = "".
Proof. vm_compute. repeat split. Qed.

(** ** Sizing *)

Lemma systemSizeKW_of_fin (C S E : Qc) :
  Q2Qc 0 < S -> Q2Qc 0 < E ->
  systemSizeKW_of (Fin C) (Fin S) (Fin E) = Fin (C / Q2Qc 365 / S / E).
Proof.
  intros HS HE. unfold systemSizeKW_of, lit, of_Q.
  rewrite div_fin by (apply Qc_pos_neq0, Q2Qc_pos; reflexivity).
  rewrite div_fin by (apply Qc_pos_neq0; exact HS).
  rewrite div_fin by (apply Qc_pos_neq0; exact HE).
  reflexivity.
Qed.


Lemma Q2Qc_eq (p q : Q) : (p == q)%Q -> Q2Qc p = Q2Qc q.
Proof. intros H. apply Qc_is_canon. simpl. rewrite !Qred_correct. exact H. Qed.


(** ** Cost, savings and payback *)

Lemma sub_fin (a b : Qc) : (Fin a - Fin b)%js = Fin (a - b).
Proof. reflexivity. Qed.

(** Linear facts about canonical rationals, settled on their
    underlying fractions. *)
Ltac qc_lra :=
  unfold Qclt, Qcle, Qcminus, Qcplus, Qcopp, Qcmult, Q2Qc in *;
  cbn [this] in *;
  repeat rewrite Qred_correct in *;
  lra.

Lemma Qcminus_neg (a b : Qc) : a < b -> a - b < Q2Qc 0.
Proof. intros H. qc_lra. Qed.

(** C9. Installation cost is capacity x 1000 x cost per watt, annual
    savings are production x rate, and the adjusted cost is the
    installation cost minus the incentive total with no floor at zero:
    when the incentives exceed the installation cost the adjusted cost is
    that negative difference. *)
Theorem cost_figures_formulas :
  forall capacity production costPerWatt rate total : Qc,
    let f := costFigures (Fin costPerWatt) (Fin rate) (Fin capacity)
               (Fin production) (Fin total) in
    cf_estimatedCost f = Fin (capacity * Q2Qc 1000 * costPerWatt)
    /\ cf_annualSavings f = Fin (production * rate)
    /\ cf_adjustedCost f = Fin (capacity * Q2Qc 1000 * costPerWatt - total)
    /\ (capacity * Q2Qc 1000 * costPerWatt < total ->
        exists d : Qc, cf_adjustedCost f = Fin d /\ d < Q2Qc 0).
Proof.
  intros capacity production costPerWatt rate total f.
  repeat split.
  intros H. exists (capacity * Q2Qc 1000 * costPerWatt - total).
  split; [reflexivity | apply Qcminus_neg; exact H].
Qed.

(** Half a kilowatt at 2.77 a watt costs 1385; incentives of 1415.5
    leave an adjusted cost of -30.5. *)
Lemma cost_figures_formulas_witness :
  exists d : Qc,
    cf_adjustedCost (costFigures averageCostPerWatt averageElectricityRate
                       (lit 0.5) (lit 12000) (lit 1415.5)) = Fin d
    /\ d < Q2Qc 0.
Proof.
  apply (cost_figures_formulas (Q2Qc 0.5) (Q2Qc 12000) (Q2Qc 2.77)
           (Q2Qc 0.14) (Q2Qc 1415.5)).
  unfold Qclt. vm_compute. reflexivity.
Defined.

Lemma paybackPeriod_unbounded_iff (cost savings : Qc) :
  paybackPeriod (Fin cost) (Fin savings) = PInf <-> savings <= Q2Qc 0.
Proof.
  unfold paybackPeriod, lit, of_Q.
  destruct (gt (Fin savings) (Fin (Q2Qc 0))) eqn:G.
  - apply gt_fin in G. rewrite div_fin by (apply Qc_pos_neq0; exact G).
    split; [discriminate | ].
    intros H. exfalso. exact (Qcle_not_lt _ _ H G).
  - split; [ | reflexivity ].
    intros _. apply Qcnot_lt_le. intros H.
    apply gt_fin in H. congruence.
Qed.

Lemma paybackPeriod_bounded (cost savings : Qc) :
  Q2Qc 0 < savings -> paybackPeriod (Fin cost) (Fin savings) = Fin (cost / savings).
Proof.
  intros G. unfold paybackPeriod, lit, of_Q.
  rewrite (proj2 (gt_fin savings (Q2Qc 0)) G).
  apply div_fin, Qc_pos_neq0, G.
Qed.

(** What the unguarded division of line 210 yields on finite
    arguments. *)
Lemma adjustedPaybackPeriod_cases (adjusted savings : Qc) :
  adjustedPaybackPeriod (Fin adjusted) (Fin savings) =
    if Qc_eq_dec savings (Q2Qc 0) then inf_of_sign (adjusted ?= Q2Qc 0)
    else Fin (adjusted / savings).
Proof. reflexivity. Qed.

Lemma adjustedPaybackPeriod_unbounded_iff (adjusted savings : Qc) :
  adjustedPaybackPeriod (Fin adjusted) (Fin savings) = PInf
  <-> savings = Q2Qc 0 /\ Q2Qc 0 < adjusted.
Proof.
  rewrite adjustedPaybackPeriod_cases.
  destruct (Qc_eq_dec savings (Q2Qc 0)) as [E | N].
  - rewrite <- Qcgt_compare.
    destruct (adjusted ?= Q2Qc 0); simpl; split;
      try discriminate; try tauto; intros [_ H]; discriminate.
  - split; [discriminate | intros [E _]; contradiction].
Qed.

(** C1 at its failing inputs.  With no production the savings are zero:
    the payback period is [Infinity], and the adjusted payback period,
    computed by a division that has no guard, is [-Infinity] when the
    incentives exceed the cost and [NaN] when they equal it.  With
    negative savings the payback period is [Infinity] and the adjusted
    one is a finite number. *)
Theorem adjusted_payback_unguarded :
  let f := costFigures averageCostPerWatt averageElectricityRate
             (lit 0.5) (lit 0) (lit 1415.5) in
  let g := costFigures averageCostPerWatt averageElectricityRate
             (lit 0.5) (lit 0) (lit 1385) in
  let k := costFigures averageCostPerWatt averageElectricityRate
             (lit 0.5) (lit (-100)) (lit 0) in
  (observe (cf_annualSavings f) = VFin 0 1
   /\ cf_paybackPeriod f = PInf /\ cf_adjustedPaybackPeriod f = NInf)
  /\ (observe (cf_annualSavings g) = VFin 0 1
      /\ cf_paybackPeriod g = PInf /\ cf_adjustedPaybackPeriod g = NaN)
  /\ (observe (cf_annualSavings k) = VFin (-14) 1
      /\ cf_paybackPeriod k = PInf
      /\ observe (cf_adjustedPaybackPeriod k) = VFin (-1385) 14).
Proof. vm_compute. repeat split. Qed.

(** The same defect through [handleSubmit]: a 500 kWh household in
    California whose production comes back as zero is shown a payback
    period of "Infinity" and an adjusted payback period of
    "-Infinity". *)
Lemma submit_shows_negative_infinity :
  let s := handleSubmit utcHost (envWith (goodResponse 0))
             (filledForm "1 Capitol Mall, Sacramento, CA" (lit 500)) in
  St.error s = ""
  /\ option_map Cost.paybackPeriod (St.costEstimate s) = Some "Infinity"
  /\ option_map Cost.adjustedPaybackPeriod (St.costEstimate s) = Some "-Infinity".
Proof. vm_compute. repeat split. Qed.

(** ** Addition is a commutative monoid *)

Lemma add_comm (x y : num) : (x + y)%js = (y + x)%js.
Proof.
  destruct x, y; simpl; try reflexivity.
  f_equal. apply Qcplus_comm.
Qed.

Lemma add_assoc (x y z : num) : (x + (y + z))%js = (x + y + z)%js.
Proof.
  destruct x, y, z; simpl; try reflexivity.
  f_equal. apply Qcplus_assoc.
Qed.

Lemma add_0_r (x : num) : (x + lit 0)%js = x.
Proof.
  destruct x; simpl; try reflexivity.
  f_equal. apply Qcplus_0_r.
Qed.

Lemma add_0_l (x : num) : (lit 0 + x)%js = x.
Proof. rewrite add_comm. apply add_0_r. Qed.

Lemma fold_left_add (l : list num) (acc : num) :
  fold_left add l acc = (acc + sum l)%js.
Proof.
  revert acc. induction l as [ | x l IH]; intros acc; simpl.
  - symmetry. apply add_0_r.
  - rewrite IH. symmetry. apply add_assoc.
Qed.

(** ** Incentives *)

Lemma applyIncentives_sources (cost : num) (l : list incentive) (acc : num) :
  map source (fst (applyIncentives cost l acc)) = l.
Proof.
  revert acc. induction l as [ | i l IH]; intros acc; simpl.
  - reflexivity.
  - specialize (IH (acc + incentiveAmount cost i)%js).
    destruct (applyIncentives cost l (acc + incentiveAmount cost i)%js).
    simpl in *. f_equal. exact IH.
Qed.

Lemma applyIncentives_amounts (cost : num) (l : list incentive) (acc : num) :
  map appliedAmount (fst (applyIncentives cost l acc)) =
  map (incentiveAmount cost) l.
Proof.
  revert acc. induction l as [ | i l IH]; intros acc; simpl.
  - reflexivity.
  - specialize (IH (acc + incentiveAmount cost i)%js).
    destruct (applyIncentives cost l (acc + incentiveAmount cost i)%js).
    simpl in *. f_equal. exact IH.
Qed.

Lemma applyIncentives_total (cost : num) (l : list incentive) (acc : num) :
  snd (applyIncentives cost l acc) =
  fold_left add (map (incentiveAmount cost) l) acc.
Proof.
  revert acc. induction l as [ | i l IH]; intros acc; simpl.
  - reflexivity.
  - specialize (IH (acc + incentiveAmount cost i)%js).
    destruct (applyIncentives cost l (acc + incentiveAmount cost i)%js).
    simpl in *. exact IH.
Qed.

Lemma applyIncentives_In (cost : num) (l : list incentive) (acc : num)
    (a : appliedIncentive) :
  In a (fst (applyIncentives cost l acc)) ->
  appliedAmount a = incentiveAmount cost (source a).
Proof.
  revert acc. induction l as [ | i l IH]; intros acc; simpl.
  - intros [].
  - specialize (IH (acc + incentiveAmount cost i)%js).
    destruct (applyIncentives cost l (acc + incentiveAmount cost i)%js).
    simpl in *. intros [<- | Hin]; [reflexivity | exact (IH Hin)].
Qed.

(** C6. For every catalog, region code and installation cost: the
    records applied are exactly the catalog records whose region code
    equals the given one, in catalog order; a rebate is applied at its
    flat amount and a tax credit at cost x fraction; the total is the sum
    of the applied amounts; and when no record matches the result is the
    empty sequence with total zero.  [calculateIncentives] is the
    instance at the catalog of the source. *)
Theorem incentives_match_and_apply :
  forall (db : list incentive) (cost : num) (code : string),
    let applied := fst (calculateIncentives_in db cost code) in
    let total := snd (calculateIncentives_in db cost code) in
    map source applied = filter (fun i => String.eqb (state i) code) db
    /\ (forall i, In i (map source applied) <-> In i db /\ state i = code)
    /\ (forall a, In a applied ->
          appliedAmount a =
            match type (source a) with
            | rebate => amount (source a)
            | taxCredit => (cost * amount (source a))%js
            end)
    /\ total = sum (map appliedAmount applied)
    /\ ((forall i, In i db -> state i <> code) ->
        applied = [] /\ total = lit 0)
    /\ calculateIncentives cost code =
         calculateIncentives_in incentivesDatabase cost code.
Proof.
  intros db cost code applied total.
  assert (Hsrc : map source applied = findIncentives_in db code)
    by apply applyIncentives_sources.
  assert (Hamt : map appliedAmount applied =
                 map (incentiveAmount cost) (findIncentives_in db code))
    by apply applyIncentives_amounts.
  split; [exact Hsrc | ].
  split.
  { intros i. rewrite Hsrc. unfold findIncentives_in.
    rewrite filter_In, String.eqb_eq. reflexivity. }
  split.
  { intros a Ha. exact (applyIncentives_In _ _ _ _ Ha). }
  split.
  { subst total. unfold calculateIncentives_in.
    rewrite applyIncentives_total, fold_left_add, add_0_l, Hamt.
    reflexivity. }
  split; [ | reflexivity ].
  intros Hnone.
  assert (E : findIncentives_in db code = []).
  { clear - Hnone. unfold findIncentives_in.
    induction db as [ | i db IH]; simpl; [reflexivity | ].
    destruct (String.eqb (state i) code) eqn:Q.
    - apply String.eqb_eq in Q. exfalso. exact (Hnone i (or_introl eq_refl) Q).
    - apply IH. intros j Hj. apply Hnone. right. exact Hj. }
  subst applied total. unfold calculateIncentives_in. rewrite E. simpl.
  split; reflexivity.
Qed.

(** No record of the catalog is keyed "TX". *)
Lemma incentives_match_and_apply_witness :
  fst (calculateIncentives_in incentivesDatabase (lit 25290) "TX") = []
  /\ snd (calculateIncentives_in incentivesDatabase (lit 25290) "TX") = lit 0.
Proof.
  apply (incentives_match_and_apply incentivesDatabase (lit 25290) "TX").
  intros i Hi. simpl in Hi.
  repeat (destruct Hi as [<- | Hi]; [simpl; discriminate | ]).
  destruct Hi.
Defined.

(** Scenario 3 of the specification, and the case sensitivity of the
    match. *)
Example incentives_california :
  map (fun a => (description (source a), observe (appliedAmount a)))
      (fst (calculateIncentives (lit 25290) "CA")) =
    [("California Solar Initiative Rebate", VFin 1000 1);
     ("Federal Solar Investment Tax Credit", VFin 7587 1)]
  /\ observe (snd (calculateIncentives (lit 25290) "CA")) = VFin 8587 1
  /\ fst (calculateIncentives (lit 25290) "ca") = []
  /\ fst (calculateIncentives (lit 25290) "CA ") = [].
Proof. vm_compute. repeat split. Qed.

(** ** Production data *)

Lemma mapi_from_length {A B : Type} (f : A -> nat -> B) (l : list A) (i : nat) :
  List.length (mapi_from f i l) = List.length l.
Proof.
  revert i. induction l as [ | x l IH]; intros i; simpl; [ | rewrite IH ]; reflexivity.
Qed.

Lemma mapi_from_nth_error {A B : Type} (f : A -> nat -> B) (l : list A) (i k : nat) :
  nth_error (mapi_from f i l) k =
  option_map (fun x => f x (i + k)%nat) (nth_error l k).
Proof.
  revert i k. induction l as [ | x l IH]; intros i k.
  - destruct k; reflexivity.
  - destruct k as [ | k]; simpl.
    + rewrite Nat.add_0_r. reflexivity.
    + rewrite IH. replace (S i + k)%nat with (i + S k)%nat by lia. reflexivity.
Qed.

Lemma mapi_from_map {A B C : Type} (f : A -> nat -> B) (g : B -> C) (g' : A -> C)
    (l : list A) (i : nat) :
  (forall x k, g (f x k) = g' x) ->
  map g (mapi_from f i l) = map g' l.
Proof.
  intros H. revert i. induction l as [ | x l IH]; intros i; simpl.
  - reflexivity.
  - rewrite H, IH. reflexivity.
Qed.

(** C4, as the code has it.  A non-empty error list fails with the
    joined messages.  Otherwise the interpretation fails, with a
    [TypeError], exactly when the [outputs] object or its monthly series
    is absent; when the series is present, whatever its length and
    whether or not the annual figure is present, it succeeds: the annual
    figure is passed on as read and every monthly value is rounded and
    labelled, in order. *)
Theorem production_interpretation_cases :
  forall d : nrelData,
    (forall e es, errors d = Some (e :: es) ->
       interpretProduction d =
         inl (Error ("Error fetching solar data: " ++ String.concat ", " (e :: es))))
    /\ (errors d = None \/ errors d = Some [] ->
        (outputs d = None ->
           exists e, interpretProduction d = inl e /\ kind e = TypeErrorN)
        /\ (forall o, outputs d = Some o -> ac_monthly o = None ->
              exists e, interpretProduction d = inl e /\ kind e = TypeErrorN)
        /\ (forall o l, outputs d = Some o -> ac_monthly o = Some l ->
              exists chart,
                interpretProduction d = inr (ac_annual o, chart)
                /\ List.length chart = List.length l
                /\ map production chart = map round l
                /\ forall i, (i < List.length l)%nat ->
                     option_map name (nth_error chart i) =
                       Some (nth_error monthNames i))).
Proof.
  intros d. split.
  - intros e es H. unfold interpretProduction, checkErrors. rewrite H. reflexivity.
  - intros Hnone.
    assert (C : checkErrors d = inr tt).
    { unfold checkErrors. destruct Hnone as [-> | ->]; reflexivity. }
    unfold interpretProduction. rewrite C. clear C Hnone.
    unfold readAnnual, chartData.
    split; [ | split ].
    + intros ->. eexists. split; reflexivity.
    + intros o -> ->. eexists. split; reflexivity.
    + intros o l -> ->. eexists. split; [reflexivity | ].
      unfold mapi. split; [apply mapi_from_length | ].
      split; [apply mapi_from_map; reflexivity | ].
      intros i Hi. rewrite mapi_from_nth_error.
      destruct (nth_error l i) eqn:N; [reflexivity | ].
      apply nth_error_None in N. lia.
Qed.

(** A response with errors ["e1"; "e2"]. *)
Lemma production_interpretation_cases_witness :
  interpretProduction {| errors := Some ["e1"; "e2"]; outputs := None |} =
    inl (Error "Error fetching solar data: e1, e2")
  /\ exists chart,
       interpretProduction (goodResponse 12000) = inr (Some (lit 12000), chart)
       /\ List.length chart = 12%nat.
Proof.
  split.
  - apply (proj1 (production_interpretation_cases
                    {| errors := Some ["e1"; "e2"]; outputs := None |})
             "e1" ["e2"]).
    reflexivity.
  - destruct (proj2 (production_interpretation_cases (goodResponse 12000))
                (or_introl eq_refl)) as (_ & _ & H).
    destruct (H _ _ eq_refl eq_refl) as (chart & H1 & H2 & _).
    exists chart. split; [exact H1 | exact H2].
Defined.

(** C4 as stated fails: a monthly series of five values is accepted,
    and so is a response without the annual figure. *)
Lemma production_length_unchecked :
  ~ (forall d o,
       outputs d = Some o ->
       (ac_annual o = None \/ ac_monthly o = None
        \/ exists l, ac_monthly o = Some l /\ List.length l <> 12%nat) ->
       exists e, interpretProduction d = inl e).
Proof.
  intros H.
  destruct (H fiveMonthsResponse _ eq_refl) as [e He].
  - right. right. eexists. split; [reflexivity | ]. simpl. discriminate.
  - discriminate He.
Qed.

Example production_five_months :
  match interpretProduction fiveMonthsResponse with
  | inr (annual, chart) =>
      option_map observe annual = Some (VFin 5000 1)
      /\ map (fun e => (name e, observe (production e))) chart =
           [(Some "Jan", VFin 1 1); (Some "Feb", VFin 2 1); (Some "Mar", VFin 3 1);
            (Some "Apr", VFin 4 1); (Some "May", VFin 5 1)]
  | inl _ => False
  end.
Proof. vm_compute. split; reflexivity. Qed.

(** ** handleSubmit *)

Lemma weatherBranch_absorbs (env : Env) (g : geoResult) (s : St.t) :
  exists w, weatherBranch env g s = (inr tt, St.setWeatherData w s).
Proof.
  unfold weatherBranch, try_catch, bind, lift, set.
  destruct (currentWeather env (lat g) (lon g)) as [e | w].
  - eexists. reflexivity.
  - destruct (main_temp w), (weather w) as [[ | d ds] | ], (clouds_all w);
      eexists; reflexivity.
Qed.

Lemma historicalBranch_absorbs (h : Host) (env : Env) (g : geoResult) (s : St.t) :
  exists w, historicalBranch h env g s = (inr tt, St.setHistoricalWeather w s).
Proof.
  unfold historicalBranch, try_catch, bind, lift, set.
  destruct (oneCall env (lat g) (lon g)) as [e | hd].
  - eexists. reflexivity.
  - destruct (daily hd) as [d | ].
    + destruct (processHistoricalWeatherData exactOps h d); eexists; reflexivity.
    + eexists. reflexivity.
Qed.

Lemma interpretProduction_inr (d : nrelData) (annual : option num)
    (chart : list chartEntry) :
  interpretProduction d = inr (annual, chart) ->
  checkErrors d = inr tt /\ readAnnual d = inr annual /\ chartData d = inr chart.
Proof.
  unfold interpretProduction.
  destruct (checkErrors d) as [e | []]; [discriminate | ].
  destruct (readAnnual d) as [e | a]; [discriminate | ].
  destruct (chartData d) as [e | c]; [discriminate | ].
  intros H. inversion H. subst. repeat split.
Qed.

(** The run in which every mandatory step succeeds. *)
Lemma handleSubmit_complete (h : Host) (env : Env) (s : St.t)
    (g : geoResult) (gs : list geoResult) (d : nrelData)
    (annual : option num) (chart : list chartEntry) :
  St.apiKeyAvailable s = true ->
  geocode env (St.address s) = inr (g :: gs) ->
  pvwatts env (requestOf s g) = inr d ->
  interpretProduction d = inr (annual, chart) ->
  let s' := handleSubmit h env s in
  let size := systemSizeKW (St.annualConsumption s) in
  let cost := estimatedCost_of averageCostPerWatt size in
  let savings := annualSavings_of averageElectricityRate (toNumber annual) in
  let inc := calculateIncentives cost (stateOfAddress (St.address s)) in
  let adjusted := adjustedCost cost (snd inc) in
  St.error s' = ""
  /\ St.loading s' = false
  /\ St.mapCoordinates s' = Some g
  /\ St.estimate s' = Some (round (toNumber annual))
  /\ St.monthlyData s' = chart
  /\ St.incentives s' = fst inc
  /\ St.costEstimate s' =
       Some (costEstimateObject h cost adjusted (paybackPeriod cost savings)
               (adjustedPaybackPeriod adjusted savings) savings size
               (recommendedPanels size) (toNumber annual) (snd inc)).
Proof.
  intros Hkey Hgeo Hpv Hint.
  destruct (interpretProduction_inr _ Hint) as (Hc & Ha & Hm).
  unfold handleSubmit. rewrite Hkey. cbn [negb].
  unfold try_finally, try_catch, estimation, bind, lift, set.
  change (St.address (resetResults s)) with (St.address s).
  change (St.annualConsumption (resetResults s)) with (St.annualConsumption s).
  change (St.orientation (resetResults s)) with (St.orientation s).
  change (St.tilt (resetResults s)) with (St.tilt s).
  rewrite Hgeo. fold (requestOf s g). rewrite Hpv, Hc, Ha.
  destruct (calculateIncentives
              (estimatedCost_of averageCostPerWatt
                 (systemSizeKW (St.annualConsumption s)))
              (stateOfAddress (St.address s))) as [applied total] eqn:Hinc.
  unfold bind, lift, set. rewrite Hm.
  match goal with
  | |- context [weatherBranch env g ?st] =>
      destruct (weatherBranch_absorbs env g st) as [w ->]
  end.
  match goal with
  | |- context [historicalBranch h env g ?st] =>
      destruct (historicalBranch_absorbs h env g st) as [hw ->]
  end.
  cbn. repeat split.
Qed.

(** After an early failure the error is shown and no result cell is
    populated. *)
Lemma early_failure_populates_nothing (h : Host) (env : Env) (s : St.t) (e : exn) :
  St.apiKeyAvailable s = true ->
  earlyFailure env s e ->
  let s' := handleSubmit h env s in
  St.error s' = errorText e
  /\ St.loading s' = false
  /\ St.estimate s' = None
  /\ St.monthlyData s' = []
  /\ St.costEstimate s' = None
  /\ St.incentives s' = []
  /\ St.weatherData s' = None
  /\ St.historicalWeather s' = None.
Proof.
  intros Hkey Hfail.
  unfold handleSubmit. rewrite Hkey. cbn [negb].
  unfold try_finally, try_catch, estimation, bind, lift, set, throw.
  change (St.address (resetResults s)) with (St.address s).
  change (St.annualConsumption (resetResults s)) with (St.annualConsumption s).
  change (St.orientation (resetResults s)) with (St.orientation s).
  change (St.tilt (resetResults s)) with (St.tilt s).
  destruct Hfail as [e Hg | Hg | g gs e Hg Hp | g gs d e Hg Hp Hc
                    | g gs d e Hg Hp Hc Ha];
    rewrite Hg; try (fold (requestOf s g); rewrite Hp);
    try rewrite Hc; try rewrite Ha; cbn; repeat split.
Qed.

(** A failure at the monthly series, after the annual figure was read:
    the error is shown, the monthly data and the cost estimate stay
    empty, and the annual estimate and the incentives set before the
    failure stay populated. *)
Lemma late_failure_keeps_partial_estimate (h : Host) (env : Env) (s : St.t)
    (g : geoResult) (gs : list geoResult) (d : nrelData)
    (annual : option num) (e : exn) :
  St.apiKeyAvailable s = true ->
  geocode env (St.address s) = inr (g :: gs) ->
  pvwatts env (requestOf s g) = inr d ->
  checkErrors d = inr tt ->
  readAnnual d = inr annual ->
  chartData d = inl e ->
  let s' := handleSubmit h env s in
  let size := systemSizeKW (St.annualConsumption s) in
  let cost := estimatedCost_of averageCostPerWatt size in
  St.error s' = errorText e
  /\ St.loading s' = false
  /\ St.estimate s' = Some (round (toNumber annual))
  /\ St.incentives s' =
       fst (calculateIncentives cost (stateOfAddress (St.address s)))
  /\ St.monthlyData s' = []
  /\ St.costEstimate s' = None.
Proof.
  intros Hkey Hgeo Hpv Hc Ha Hm.
  unfold handleSubmit. rewrite Hkey. cbn [negb].
  unfold try_finally, try_catch, estimation, bind, lift, set.
  change (St.address (resetResults s)) with (St.address s).
  change (St.annualConsumption (resetResults s)) with (St.annualConsumption s).
  change (St.orientation (resetResults s)) with (St.orientation s).
  change (St.tilt (resetResults s)) with (St.tilt s).
  rewrite Hgeo. fold (requestOf s g). rewrite Hpv, Hc, Ha.
  destruct (calculateIncentives
              (estimatedCost_of averageCostPerWatt
                 (systemSizeKW (St.annualConsumption s)))
              (stateOfAddress (St.address s))) as [applied total] eqn:Hinc.
  unfold bind, lift, set. rewrite Hm.
  cbn. repeat split.
Qed.

(** A complete run: 10000 kWh a year in California with a production
    of 12000 kWh. *)
Example submit_california :
  let s := handleSubmit utcHost (envWith (goodResponse 12000))
             (filledForm "1 Capitol Mall, Sacramento, CA" (lit 10000)) in
  St.error s = ""
  /\ St.loading s = false
  /\ St.estimate s = Some (of_Z 12000)
  /\ St.weatherData s = None
  /\ List.length (St.monthlyData s) = 12%nat
  /\ option_map (fun c =>
       (Cost.installationCost c, Cost.totalIncentives c,
        Cost.adjustedInstallationCost c, Cost.annualSavings c,
        Cost.recommendedPanels c)) (St.costEstimate s) =
       Some (of_Z 25297, of_Z 8589, of_Z 16708, of_Z 1680, of_Z 27)
  /\ option_map (fun c =>
       (Cost.systemSizeKW c, Cost.paybackPeriod c,
        Cost.adjustedPaybackPeriod c)) (St.costEstimate s) =
       Some ("9.13", "15.1", "9.9").
Proof. vm_compute. repeat split. Qed.

(** C2 at its failing input.  PVWatts answers with an annual figure
    and no monthly series: reading the series raises a [TypeError], the
    estimation ends with that error shown, and the annual production
    estimate (12000) and the two California incentives, which were set
    before the failure, are still populated. *)
Theorem partial_estimate_on_late_failure :
  let s := handleSubmit utcHost (envWith noMonthlyResponse)
             (filledForm "1 Capitol Mall, Sacramento, CA" (lit 10000)) in
  failed s = true
  /\ St.error s = "Cannot read properties of undefined (reading 'map')"
  /\ St.estimate s = Some (of_Z 12000)
  /\ map (fun a => description (source a)) (St.incentives s) =
       ["California Solar Initiative Rebate";
        "Federal Solar Investment Tax Credit"]
  /\ St.monthlyData s = []
  /\ St.costEstimate s = None.
Proof. vm_compute. repeat split. Qed.

(** C3 as stated fails: with a consumption of zero, or a negative one,
    the sizing raises nothing and the estimation completes. *)
Lemma sizing_accepts_nonpositive :
  ~ (forall c : Qc, c <= Q2Qc 0 ->
       failed (handleSubmit utcHost (envWith (goodResponse 12000))
                 (filledForm "1 Capitol Mall, Sacramento, CA" (Fin c))) = true).
Proof.
  intros H. specialize (H (Q2Qc 0)).
  assert (L : Q2Qc 0 <= Q2Qc 0) by apply Qcle_refl.
  specialize (H L). vm_compute in H. discriminate H.
Qed.

Example sizing_zero_and_negative :
  observe (systemSizeKW (lit 0)) = VFin 0 1
  /\ observe (systemSizeKW (lit (-1095))) = VFin (-1) 1
  /\ systemSizeKW NaN = NaN
  /\ failed (handleSubmit utcHost (envWith (goodResponse 12000))
               (filledForm "1 Capitol Mall, Sacramento, CA" (lit (-1095)))) = false.
Proof. vm_compute. repeat split. Qed.

(** C3, as the code has it.  The sizing has no check and no failure:
    for every consumption, of either sign or zero, the capacity is
    consumption / 365 / 4 / 0.75 and it is what the production request
    carries; when the collaborators answer and the response can be
    interpreted, the estimation completes without an error. *)
Theorem sizing_never_fails :
  forall (c : Qc) (h : Host) (env : Env) (s : St.t)
         (g : geoResult) (gs : list geoResult) (d : nrelData)
         (annual : option num) (chart : list chartEntry),
    St.annualConsumption s = Fin c ->
    St.apiKeyAvailable s = true ->
    geocode env (St.address s) = inr (g :: gs) ->
    pvwatts env (requestOf s g) = inr d ->
    interpretProduction d = inr (annual, chart) ->
    systemSizeKW (Fin c) = Fin (c / Q2Qc 365 / Q2Qc 4 / Q2Qc 0.75)
    /\ system_capacity (requestOf s g) = Fin (c / Q2Qc 365 / Q2Qc 4 / Q2Qc 0.75)
    /\ failed (handleSubmit h env s) = false.
Proof.
  intros c h env s g gs d annual chart Hc Hkey Hgeo Hpv Hint.
  assert (E : systemSizeKW (Fin c) = Fin (c / Q2Qc 365 / Q2Qc 4 / Q2Qc 0.75)).
  { unfold systemSizeKW, averageSunHoursPerDay, averageSystemEfficiency, lit, of_Q.
    apply systemSizeKW_of_fin; apply Q2Qc_pos; reflexivity. }
  split; [exact E | ].
  split.
  - unfold requestOf. cbn [system_capacity]. rewrite Hc. exact E.
  - destruct (handleSubmit_complete h env s Hkey Hgeo Hpv Hint) as (He & _).
    unfold failed. rewrite He. reflexivity.
Qed.

(** A negative consumption of 1095 kWh: a capacity of -1 kW. *)
Lemma sizing_never_fails_witness :
  systemSizeKW (Fin (Q2Qc (-1095))) =
    Fin (Q2Qc (-1095) / Q2Qc 365 / Q2Qc 4 / Q2Qc 0.75)
  /\ failed (handleSubmit utcHost (envWith (goodResponse 12000))
               (filledForm "1 Capitol Mall, Sacramento, CA" (Fin (Q2Qc (-1095)))))
     = false.
Proof.
  destruct (@sizing_never_fails (Q2Qc (-1095)) utcHost
              (envWith (goodResponse 12000))
              (filledForm "1 Capitol Mall, Sacramento, CA" (Fin (Q2Qc (-1095))))
              sacramento [] (goodResponse 12000)
              (Some (lit 12000))
              (mapi (fun value index =>
                       {| name := nth_error monthNames index;
                          production := round value |}) twelveMonths)
              eq_refl eq_refl eq_refl eq_refl eq_refl) as (H1 & _ & H3).
  split; [exact H1 | exact H3].
Defined.

(** ** Determinism *)

Lemma resetResults_inputs (s1 s2 : St.t) :
  St.address s1 = St.address s2 ->
  St.annualConsumption s1 = St.annualConsumption s2 ->
  St.orientation s1 = St.orientation s2 ->
  St.tilt s1 = St.tilt s2 ->
  St.apiKeyAvailable s1 = St.apiKeyAvailable s2 ->
  resetResults s1 = resetResults s2.
Proof.
  destruct s1, s2. cbn. intros -> -> -> -> ->. reflexivity.
Qed.

Lemma round_fin_range (x : Qc) (lo hi : Z) :
  (inject_Z lo + (1 # 2) <= x)%Q -> (x < inject_Z hi + (1 # 2))%Q ->
  exists n : Z, round (Fin x) = of_Z n /\ (lo + 1 <= n <= hi)%Z.
Proof.
  intros Hlo Hhi. exists (Qfloor (x + Q2Qc (1 # 2))%Qc).
  split; [reflexivity | ].
  set (y := this (x + Q2Qc (1 # 2))%Qc).
  assert (Ey : (y == x + (1 # 2))%Q).
  { unfold y. cbn [this Qcplus Q2Qc]. rewrite !Qred_correct. reflexivity. }
  pose proof (Qfloor_le y) as F1. pose proof (Qlt_floor y) as F2.
  rewrite inject_Z_plus in F2. change (inject_Z 1) with 1%Q in F2.
  split.
  - assert (L : (inject_Z lo < inject_Z (Qfloor y))%Q) by lra.
    rewrite <- Zlt_Qlt in L. lia.
  - assert (L : (inject_Z (Qfloor y) < inject_Z (hi + 1))%Q).
    { rewrite inject_Z_plus. change (inject_Z 1) with 1%Q. lra. }
    rewrite <- Zlt_Qlt in L. lia.
Qed.

(** C10 as stated fails for the endpoint: the same request yields 2000
    for a draw of 0 and 4500 for a draw of 1/2. *)
Lemma endpoint_depends_on_draw :
  ~ (forall (req : Server.request) (r1 r2 : Qc),
       Q2Qc 0 <= r1 -> r1 < Q2Qc 1 -> Q2Qc 0 <= r2 -> r2 < Q2Qc 1 ->
       Server.production (Server.estimate (Fin r1) req) =
       Server.production (Server.estimate (Fin r2) req)).
Proof.
  intros H.
  specialize (H {| Server.address := "1 Capitol Mall, Sacramento, CA";
                   Server.roofArea := lit 120 |}
                (Q2Qc 0) (Q2Qc (1 # 2))).
  assert (E : observe (of_Z 2000) = observe (of_Z 4500)).
  { rewrite <- H at 1.
    - vm_compute. reflexivity.
    - unfold Qcle. vm_compute. discriminate.
    - unfold Qclt. vm_compute. reflexivity.
    - unfold Qcle. vm_compute. discriminate.
    - unfold Qclt. vm_compute. reflexivity. }
  vm_compute in E. discriminate E.
Qed.

(** C10, as the code has it.  [handleSubmit] is a function of the form
    inputs and of the collaborators' answers: two runs from states that
    agree on address, consumption, orientation and tilt end in the same
    state, whatever results the earlier state held.  The endpoint of the
    server ignores its request and returns the draw scaled to a whole
    number between 2000 and 7000. *)
Theorem estimation_deterministic_endpoint_random :
  (forall (h : Host) (env : Env) (s1 s2 : St.t),
     St.apiKeyAvailable s1 = true -> St.apiKeyAvailable s2 = true ->
     St.address s1 = St.address s2 ->
     St.annualConsumption s1 = St.annualConsumption s2 ->
     St.orientation s1 = St.orientation s2 ->
     St.tilt s1 = St.tilt s2 ->
     handleSubmit h env s1 = handleSubmit h env s2)
  /\ (forall (r : Qc) (req : Server.request),
        Q2Qc 0 <= r -> r < Q2Qc 1 ->
        exists n : Z,
          Server.production (Server.estimate (Fin r) req) = of_Z n
          /\ (2000 <= n <= 7000)%Z)
  /\ (forall (r : num) (req1 req2 : Server.request),
        Server.estimate r req1 = Server.estimate r req2).
Proof.
  split; [ | split ].
  - intros h env s1 s2 K1 K2 Ha Hc Ho Ht.
    unfold handleSubmit. rewrite K1, K2, Ha, Hc, Ho, Ht.
    rewrite (resetResults_inputs s1 s2) by congruence.
    reflexivity.
  - intros r req H0 H1. unfold Server.estimate. cbn [Server.production].
    change (Fin r * lit 5000 + lit 2000)%js
      with (Fin (r * Q2Qc 5000 + Q2Qc 2000)).
    destruct (@round_fin_range (r * Q2Qc 5000 + Q2Qc 2000) 1999 7000)
      as (n & En & Hn).
    + unfold Qcle in H0. cbn [this Qcplus Qcmult Q2Qc] in *.
      rewrite !Qred_correct in *. change (inject_Z 1999) with 1999%Q. lra.
    + unfold Qclt in H1. cbn [this Qcplus Qcmult Q2Qc] in *.
      rewrite !Qred_correct in *. change (inject_Z 7000) with 7000%Q. lra.
    + exists n. split; [exact En | lia].
  - reflexivity.
Qed.

(** Two submissions of the same form, one from a fresh component and
    one after an earlier estimate; and a draw of 1/2. *)
Lemma estimation_deterministic_endpoint_random_witness :
  handleSubmit utcHost (envWith (goodResponse 12000))
    (filledForm "1 Capitol Mall, Sacramento, CA" (lit 10000)) =
  handleSubmit utcHost (envWith (goodResponse 12000))
    (handleSubmit utcHost (envWith noMonthlyResponse)
       (filledForm "1 Capitol Mall, Sacramento, CA" (lit 10000)))
  /\ exists n : Z,
       Server.production
         (Server.estimate (Fin (Q2Qc (1 # 2)))
            {| Server.address := "1 Capitol Mall, Sacramento, CA";
               Server.roofArea := lit 120 |}) = of_Z n
       /\ (2000 <= n <= 7000)%Z.
Proof.
  destruct estimation_deterministic_endpoint_random as (D & R & _).
  split.
  - apply D; reflexivity.
  - apply R.
    + unfold Qcle. vm_compute. discriminate.
    + unfold Qclt. vm_compute. reflexivity.
Defined.

(** ** Climate aggregation *)

Lemma MonthFromTime_range (t : Z) : (0 <= MonthFromTime t <= 11)%Z.
Proof.
  unfold MonthFromTime.
  repeat match goal with
         | |- context [if ?b then _ else _] => destruct b
         end; lia.
Qed.

Lemma update_nth_length {A : Type} (n : nat) (f : A -> A) (a : list A) :
  List.length (update_nth n f a) = List.length a.
Proof.
  revert n. induction a as [ | x a IH]; intros [ | n]; simpl; auto.
Qed.

Lemma update_nth_nth_error {A : Type} (n k : nat) (f : A -> A) (a : list A) :
  nth_error (update_nth n f a) k =
  if Nat.eqb k n then option_map f (nth_error a k) else nth_error a k.
Proof.
  revert n k. induction a as [ | x a IH]; intros n k.
  - destruct n, k; simpl; try reflexivity; destruct (Nat.eqb k n); reflexivity.
  - destruct n as [ | n], k as [ | k]; simpl; try reflexivity.
    apply IH.
Qed.

Lemma update_nth_comm {A : Type} (n m : nat) (f g : A -> A) (a : list A) :
  (n = m -> forall x, f (g x) = g (f x)) ->
  update_nth n f (update_nth m g a) = update_nth m g (update_nth n f a).
Proof.
  revert n m. induction a as [ | x a IH]; intros n m H.
  - destruct n, m; reflexivity.
  - destruct n as [ | n], m as [ | m]; simpl; try reflexivity.
    + rewrite H; reflexivity.
    + f_equal. apply IH. intros E. apply H. congruence.
Qed.

Lemma index_Some_iff {A : Type} (a : list A) (m : Z) :
  (exists x, index a m = Some x)
  <-> ((0 <=? m)%Z && (m <? Z.of_nat (List.length a))%Z = true).
Proof.
  unfold index. rewrite andb_true_iff, Z.leb_le, Z.ltb_lt.
  destruct (m <? 0)%Z eqn:N.
  - apply Z.ltb_lt in N. split; [intros [x Hx]; discriminate | lia].
  - apply Z.ltb_ge in N. split.
    + intros [x Hx]. split; [exact N | ].
      assert (L : (Z.to_nat m < List.length a)%nat).
      { apply nth_error_Some. congruence. }
      lia.
    + intros [_ L]. destruct (nth_error a (Z.to_nat m)) eqn:E.
      * eexists. reflexivity.
      * apply nth_error_None in E. lia.
Qed.

Section AnyArithmetic.

Variable N : Type.
Variable o : Ops N.
Variable h : Host.

(** [addDay] fails exactly when the sample has no slot, always with the
    same exception, and otherwise updates the slot. *)
Lemma addDay_slot (acc : list (Acc.t N)) (d : dailySample N) :
  addDay o h acc d =
  match slotOf o h (List.length acc) d with
  | Some k => inr (update_nth k (bump o d) acc)
  | None => inl (undefinedProperty "temperature")
  end.
Proof.
  unfold addDay, slotOf. destruct (monthOf o h d) as [m | ]; [ | reflexivity].
  pose proof (index_Some_iff acc m) as I.
  destruct ((0 <=? m)%Z && (m <? Z.of_nat (List.length acc))%Z).
  - destruct (proj2 I eq_refl) as [x ->]. reflexivity.
  - destruct (index acc m) as [x | ]; [ | reflexivity].
    assert (F : false = true) by (apply I; eexists; reflexivity).
    discriminate F.
Qed.

Lemma forEachDay_two (x y : dailySample N) (l : list (dailySample N))
    (acc : list (Acc.t N)) :
  forEachDay o h (x :: y :: l) acc =
  match (match addDay o h acc x with
         | inl e => inl e
         | inr acc' => addDay o h acc' y
         end) with
  | inl e => inl e
  | inr acc'' => forEachDay o h l acc''
  end.
Proof. simpl. destruct (addDay o h acc x); reflexivity. Qed.

Lemma validDate_month (d : dailySample N) :
  validDate o d = true ->
  exists m, monthOf o h d = Some m /\ (0 <= m <= 11)%Z.
Proof.
  unfold validDate, monthOf, getMonth.
  destruct (TimeClip (exact o (times o (dt d) (ofZ o 1000)))) as [t | ];
    [ | discriminate].
  intros _. eexists. split; [reflexivity | apply MonthFromTime_range].
Qed.

(** Whatever the arithmetic, the accumulator of month [k] after the
    loop is the callback folded over the samples of month [k], in
    their order in the input. *)
Lemma forEachDay_rows (l : list (dailySample N)) :
  forall acc,
    List.length acc = 12%nat ->
    (forall d, In d l -> validDate o d = true) ->
    exists acc',
      forEachDay o h l acc = inr acc'
      /\ List.length acc' = 12%nat
      /\ forall k,
           nth_error acc' k =
           option_map
             (fun m => fold_left (fun m d => bump o d m)
                         (filter (inMonth o h k) l) m)
             (nth_error acc k).
Proof.
  induction l as [ | d l IH]; intros acc Hlen Hvalid.
  - exists acc. split; [reflexivity | ]. split; [exact Hlen | ].
    intros k. cbn. destruct (nth_error acc k); reflexivity.
  - destruct (validDate_month d (Hvalid d (or_introl eq_refl)))
      as (m & Hm & Hrange).
    cbn [forEachDay]. rewrite addDay_slot. unfold slotOf.
    rewrite Hm, Hlen.
    replace ((0 <=? m)%Z && (m <? Z.of_nat 12)%Z) with true
      by (symmetry; apply andb_true_iff; split;
          [apply Z.leb_le | apply Z.ltb_lt]; lia).
    destruct (IH (update_nth (Z.to_nat m) (bump o d) acc)) as (acc' & E & L & R).
    { rewrite update_nth_length. exact Hlen. }
    { intros d' Hd'. apply Hvalid. right. exact Hd'. }
    exists acc'. split; [exact E | ]. split; [exact L | ].
    intros k. rewrite R, update_nth_nth_error.
    cbn [filter]. unfold inMonth at 2. rewrite Hm.
    destruct (Nat.eqb k (Z.to_nat m)) eqn:Q.
    + apply Nat.eqb_eq in Q.
      replace (m =? Z.of_nat k)%Z with true by (symmetry; apply Z.eqb_eq; lia).
      destruct (nth_error acc k); reflexivity.
    + apply Nat.eqb_neq in Q.
      replace (m =? Z.of_nat k)%Z with false by (symmetry; apply Z.eqb_neq; lia).
      reflexivity.
Qed.

Lemma filter_out_of_range (k : nat) (l : list (dailySample N)) :
  (12 <= k)%nat -> filter (inMonth o h k) l = [].
Proof.
  intros Hk. induction l as [ | d l IH]; [reflexivity | ].
  cbn [filter]. rewrite IH.
  unfold inMonth, monthOf, getMonth.
  destruct (TimeClip (exact o (times o (dt d) (ofZ o 1000)))) as [t | ];
    [ | reflexivity].
  pose proof (MonthFromTime_range (t + LocalTZA h t)) as R.
  replace (MonthFromTime (t + LocalTZA h t) =? Z.of_nat k)%Z with false
    by (symmetry; apply Z.eqb_neq; lia).
  reflexivity.
Qed.

(** Whatever the arithmetic, the result is determined by the samples
    of each month in their input order. *)
Lemma process_by_month (l l' : list (dailySample N)) :
  (forall d, In d l -> validDate o d = true) ->
  (forall d, In d l' -> validDate o d = true) ->
  (forall k, filter (inMonth o h k) l = filter (inMonth o h k) l') ->
  processHistoricalWeatherData o h l = processHistoricalWeatherData o h l'.
Proof.
  intros V V' F. unfold processHistoricalWeatherData.
  destruct (forEachDay_rows l (repeat (Acc.zero o) 12) eq_refl V)
    as (a & E & _ & R).
  destruct (forEachDay_rows l' (repeat (Acc.zero o) 12) eq_refl V')
    as (a' & E' & _ & R').
  rewrite E, E'. do 2 f_equal.
  apply nth_error_ext. intros k. rewrite R, R', F. reflexivity.
Qed.

End AnyArithmetic.

(** *** Exact arithmetic *)

Lemma bump_comm (x y : dailySample num) (m : Acc.t num) :
  bump exactOps x (bump exactOps y m) = bump exactOps y (bump exactOps x m).
Proof.
  unfold bump. cbn [Acc.temperature Acc.solarRadiation Acc.count plus exactOps].
  f_equal.
  - rewrite <- !add_assoc. f_equal. apply add_comm.
  - rewrite <- !add_assoc. f_equal. apply add_comm.
Qed.

Lemma addDay_swap (h : Host) (acc : list (Acc.t num)) (x y : dailySample num) :
  match addDay exactOps h acc x with
  | inl e => inl e
  | inr acc' => addDay exactOps h acc' y
  end =
  match addDay exactOps h acc y with
  | inl e => inl e
  | inr acc' => addDay exactOps h acc' x
  end.
Proof.
  rewrite (addDay_slot exactOps h acc x), (addDay_slot exactOps h acc y).
  destruct (slotOf exactOps h (List.length acc) x) as [kx | ] eqn:Sx;
    destruct (slotOf exactOps h (List.length acc) y) as [ky | ] eqn:Sy;
    rewrite ?addDay_slot, ?update_nth_length, ?Sx, ?Sy; try reflexivity.
  f_equal. apply update_nth_comm. intros _ m. apply bump_comm.
Qed.

Lemma forEachDay_perm (h : Host) (l l' : list (dailySample num)) :
  Permutation l l' ->
  forall acc, forEachDay exactOps h l acc = forEachDay exactOps h l' acc.
Proof.
  induction 1 as [ | x l l' _ IH | x y l | l l' l'' _ IH1 _ IH2]; intros acc.
  - reflexivity.
  - simpl. destruct (addDay exactOps h acc x); [reflexivity | apply IH].
  - rewrite !forEachDay_two, (addDay_swap h acc y x). reflexivity.
  - rewrite IH1. apply IH2.
Qed.

(** C8, as the code has it.  Whatever the arithmetic, the summary is
    determined by the samples of each month in their input order: two
    sequences of samples with representable dates that list the samples
    of every month in the same order give the same twelve rows.  On
    exact arithmetic, aggregating any permutation of a sequence gives the
    same result as aggregating the sequence: the same twelve rows, or the
    same exception when a sample has no valid date. *)
Theorem climate_permutation_invariant :
  (forall (N : Type) (o : Ops N) (h : Host) (l l' : list (dailySample N)),
     (forall d, In d l -> validDate o d = true) ->
     (forall d, In d l' -> validDate o d = true) ->
     (forall k, filter (inMonth o h k) l = filter (inMonth o h k) l') ->
     processHistoricalWeatherData o h l = processHistoricalWeatherData o h l')
  /\ (forall (h : Host) (samples samples' : list (dailySample num)),
        Permutation samples samples' ->
        processHistoricalWeatherData exactOps h samples =
        processHistoricalWeatherData exactOps h samples').
Proof.
  split.
  - intros N o h l l'. apply process_by_month.
  - intros h samples samples' P.
    unfold processHistoricalWeatherData.
    rewrite (forEachDay_perm h P). reflexivity.
Qed.

(** The four binary64 days of January with a day of July moved from the
    end to the front; and the four exact sample days, reversed. *)
Lemma climate_permutation_invariant_witness :
  processHistoricalWeatherData binary64 utcHost (tieDays ++ [julyDay]) =
  processHistoricalWeatherData binary64 utcHost (julyDay :: tieDays)
  /\ processHistoricalWeatherData exactOps utcHost fourDays =
     processHistoricalWeatherData exactOps utcHost (rev fourDays).
Proof.
  destruct climate_permutation_invariant as (G & X).
  split.
  - apply G.
    + intros d Hd. cbn in Hd.
      repeat (destruct Hd as [<- | Hd]; [vm_compute; reflexivity | ]).
      destruct Hd.
    + intros d Hd. cbn in Hd.
      repeat (destruct Hd as [<- | Hd]; [vm_compute; reflexivity | ]).
      destruct Hd.
    + intros k. destruct (Nat.lt_ge_cases k 12) as [Hk | Hk].
      * do 12 (destruct k as [ | k]; [vm_compute; reflexivity | ]). lia.
      * rewrite !filter_out_of_range by exact Hk. reflexivity.
  - apply X. apply Permutation_rev.
Defined.

(** C8 as stated fails on binary64.  Four days of January with
    temperatures 0.1, 0.2, 0.3 and 0.4: added in this order the sum is
    1 and the mean 0.25 prints as "0.3"; added in the reverse order the
    sum is 0.9999999999999999 and the mean prints as "0.2". *)
Lemma accumulation_order_binary64 :
  ~ (forall l l' : list (dailySample float),
       Permutation l l' ->
       processHistoricalWeatherData binary64 utcHost l =
       processHistoricalWeatherData binary64 utcHost l').
Proof.
  intros H.
  specialize (H tieDays (rev tieDays) (Permutation_rev tieDays)).
  assert (E : forall r r' : exn + list Row.t, r = r' ->
              match r, r' with
              | inr (a :: _), inr (b :: _) => Row.temperature a = Row.temperature b
              | _, _ => True
              end).
  { intros r r' <-. destruct r as [e | [ | a l]]; reflexivity. }
  apply E in H. vm_compute in H. discriminate H.
Qed.

Example january_binary64 :
  option_map (fun rows => map Row.temperature (firstn 2 rows))
    (match processHistoricalWeatherData binary64 utcHost tieDays with
     | inr rows => Some rows | inl _ => None end) =
    Some [VStr "0.3"; VNum (lit 0)]
  /\ option_map (fun rows => map Row.temperature (firstn 2 rows))
       (match processHistoricalWeatherData binary64 utcHost (rev tieDays) with
        | inr rows => Some rows | inl _ => None end) =
       Some [VStr "0.2"; VNum (lit 0)].
Proof. split; vm_compute; reflexivity. Qed.

Lemma of_Z_succ (n : Z) : (of_Z n + of_Z 1)%js = of_Z (n + 1).
Proof.
  unfold of_Z. cbn [add]. f_equal.
  unfold Qcplus. apply Q2Qc_eq. cbn [this Q2Qc].
  rewrite !Qred_correct, inject_Z_plus. reflexivity.
Qed.

(** Folding the callback over the samples of one month adds their
    temperatures and UV indices and counts them. *)
Lemma fold_bump (l : list (dailySample num)) (t u : num) (n : Z) :
  fold_left (fun m d => bump exactOps d m) l
    {| Acc.temperature := t; Acc.solarRadiation := u; Acc.count := of_Z n |} =
  {| Acc.temperature := (t + sum (map (@temp_day num) l))%js;
     Acc.solarRadiation := (u + sum (map (@uvi num) l))%js;
     Acc.count := of_Z (n + Z.of_nat (List.length l)) |}.
Proof.
  revert t u n. induction l as [ | d l IH]; intros t u n.
  - cbn [fold_left map sum fold_right List.length Z.of_nat].
    rewrite !add_0_r, Z.add_0_r. reflexivity.
  - cbn [fold_left]. unfold bump at 2.
    cbn [Acc.temperature Acc.solarRadiation Acc.count plus ofZ exactOps].
    rewrite of_Z_succ, IH.
    cbn [map sum fold_right List.length].
    f_equal; [symmetry; apply add_assoc | symmetry; apply add_assoc | ].
    f_equal. lia.
Qed.

Lemma of_Z_positive (n : Z) : (0 < n)%Z -> gt (of_Z n) (of_Z 0) = true.
Proof.
  intros H. unfold of_Z. apply gt_fin.
  unfold Qclt. cbn [this Q2Qc]. rewrite !Qred_correct.
  rewrite <- Zlt_Qlt. exact H.
Qed.

Lemma monthlyMean_roundedMean (h : Host) (l : list num) :
  monthlyMean exactOps h (of_Z 0 + sum l)%js (of_Z (0 + Z.of_nat (List.length l))) =
  roundedMean h l.
Proof.
  destruct l as [ | x l].
  - vm_compute. reflexivity.
  - unfold monthlyMean, roundedMean, mean.
    cbn [greater over exact ofZ exactOps].
    rewrite Z.add_0_l. change (of_Z 0) with (lit 0) at 2. rewrite add_0_l.
    rewrite of_Z_positive by (cbn [List.length]; lia).
    reflexivity.
Qed.

Lemma nth_error_repeat {A : Type} (x : A) (n k : nat) :
  (k < n)%nat -> nth_error (repeat x n) k = Some x.
Proof.
  revert k. induction n as [ | n IH]; intros k H; [lia | ].
  destruct k as [ | k]; [reflexivity | ].
  cbn. apply IH. lia.
Qed.

(** The integer [toFixed] prints is the nearest to the scaled
    magnitude, ties going up. *)
Lemma nearest_scaled_error (f : nat) (a : Qc) :
  let n := nearest_scaled f a in
  (inject_Z n - (1 # 2) <= a * inject_Z (pow10 f))%Q
  /\ (a * inject_Z (pow10 f) < inject_Z n + (1 # 2))%Q.
Proof.
  intros n. unfold n, nearest_scaled.
  set (y := this (a * Q2Qc (inject_Z (pow10 f)) + Q2Qc (1 # 2))%Qc).
  assert (Ey : (y == a * inject_Z (pow10 f) + (1 # 2))%Q).
  { unfold y. cbn [this Qcplus Qcmult Q2Qc]. rewrite !Qred_correct. reflexivity. }
  pose proof (Qfloor_le y) as F1. pose proof (Qlt_floor y) as F2.
  rewrite inject_Z_plus in F2. change (inject_Z 1) with 1%Q in F2.
  split; lra.
Qed.

Lemma toFixed_finite (h : Host) (f : nat) (q : Qc) :
  Qc_abs q < Q2Qc (inject_Z (10 ^ 21)) ->
  toFixed h f (Fin q) =
    (if Qc_ltb q (Q2Qc 0) then "-" else "") ++
    fixed_digits f (nearest_scaled f (Qc_abs q)).
Proof.
  intros H. unfold toFixed. rewrite (proj2 (Qc_ltb_spec _ _) H). reflexivity.
Qed.

Lemma summaryRow_expected (h : Host) (samples : list (dailySample num)) (i : nat) :
  summaryRow exactOps h
    (fold_left (fun m d => bump exactOps d m)
       (filter (inMonth exactOps h i) samples) (Acc.zero exactOps)) i =
  expectedRow h samples i.
Proof.
  unfold Acc.zero. cbn [ofZ exactOps].
  rewrite fold_bump. unfold summaryRow, expectedRow.
  cbn [Acc.temperature Acc.solarRadiation Acc.count].
  f_equal.
  - rewrite <- (length_map (@temp_day num)). apply monthlyMean_roundedMean.
  - rewrite <- (length_map (@uvi num)). apply monthlyMean_roundedMean.
Qed.



(* ================================================================== *)
(** * Further properties of the code *)
(* ================================================================== *)

(** ** handleSubmit: what a run leaves untouched *)

Lemma preserves_lift {A : Type} (r : exn + A) : preserves (lift r).
Proof. intros s. reflexivity. Qed.

Lemma preserves_throw {A : Type} (e : exn) : preserves (@throw A e).
Proof. intros s. reflexivity. Qed.

Lemma preserves_set (f : St.t -> St.t) :
  (forall s, inputsOf (f s) = inputsOf s) -> preserves (set f).
Proof. intros H s. apply H. Qed.

Lemma preserves_bind {A B : Type} (m : M A) (k : A -> M B) :
  preserves m -> (forall a, preserves (k a)) -> preserves (bind m k).
Proof.
  intros Hm Hk s. unfold bind. specialize (Hm s).
  destruct (m s) as [[e | a] s']; cbn [snd] in *.
  - exact Hm.
  - rewrite (Hk a s'). exact Hm.
Qed.

Lemma preserves_try_catch {A : Type} (m : M A) (handler : exn -> M A) :
  preserves m -> (forall e, preserves (handler e)) ->
  preserves (try_catch m handler).
Proof.
  intros Hm Hh s. unfold try_catch. specialize (Hm s).
  destruct (m s) as [[e | a] s']; cbn [snd] in *.
  - rewrite (Hh e s'). exact Hm.
  - exact Hm.
Qed.

Lemma preserves_try_finally {A : Type} (m : M A) (f : St.t -> St.t) :
  preserves m -> (forall s, inputsOf (f s) = inputsOf s) ->
  preserves (try_finally m f).
Proof.
  intros Hm Hf s. unfold try_finally. specialize (Hm s).
  destruct (m s) as [r s']; cbn [snd] in *.
  rewrite Hf. exact Hm.
Qed.

Ltac setter_preserves :=
  apply preserves_set; intros []; reflexivity.

Lemma preserves_weatherBranch (env : Env) (g : geoResult) :
  preserves (weatherBranch env g).
Proof.
  unfold weatherBranch. apply preserves_try_catch.
  - apply preserves_bind; [apply preserves_lift | ].
    intros w.
    destruct (main_temp w), (weather w) as [[ | d ds] | ], (clouds_all w);
      setter_preserves.
  - intros e. setter_preserves.
Qed.

Lemma preserves_historicalBranch (h : Host) (env : Env) (g : geoResult) :
  preserves (historicalBranch h env g).
Proof.
  unfold historicalBranch. apply preserves_try_catch.
  - apply preserves_bind; [apply preserves_lift | ].
    intros hd. destruct (daily hd) as [d | ].
    + apply preserves_bind; [apply preserves_lift | ].
      intros rows. setter_preserves.
    + setter_preserves.
  - intros e. setter_preserves.
Qed.

Lemma preserves_estimation (h : Host) (env : Env) (a : string) (c o t : num) :
  preserves (estimation h env a c o t).
Proof.
  unfold estimation.
  apply preserves_bind; [apply preserves_lift | ].
  intros [ | g gs]; [apply preserves_throw | ].
  apply preserves_bind; [setter_preserves | intros _].
  apply preserves_bind; [apply preserves_lift | intros nrel].
  apply preserves_bind; [apply preserves_lift | intros _].
  apply preserves_bind; [apply preserves_lift | intros annual].
  apply preserves_bind; [setter_preserves | intros _].
  destruct (calculateIncentives
              (estimatedCost_of averageCostPerWatt (systemSizeKW c))
              (stateOfAddress a)) as [applied total].
  apply preserves_bind; [setter_preserves | intros _].
  apply preserves_bind; [apply preserves_lift | intros chart].
  apply preserves_bind; [setter_preserves | intros _].
  apply preserves_bind; [setter_preserves | intros _].
  apply preserves_bind; [apply preserves_weatherBranch | intros _].
  apply preserves_historicalBranch.
Qed.

Lemma resetResults_inputsOf (s : St.t) : inputsOf (resetResults s) = inputsOf s.
Proof. destruct s. reflexivity. Qed.

(** Without the API keys a submission stores the message "Cannot
    proceed without API keys." and does nothing else: every other cell,
    the results of an earlier run and the loading flag included, keeps
    its value, whatever the collaborators would answer. *)
Lemma submit_without_keys :
  forall (h : Host) (env : Env) (s : St.t),
    St.apiKeyAvailable s = false ->
    handleSubmit h env s = St.setError "Cannot proceed without API keys." s
    /\ inputsOf (handleSubmit h env s) = inputsOf s
    /\ St.loading (handleSubmit h env s) = St.loading s
    /\ St.estimate (handleSubmit h env s) = St.estimate s
    /\ St.monthlyData (handleSubmit h env s) = St.monthlyData s
    /\ St.costEstimate (handleSubmit h env s) = St.costEstimate s
    /\ St.incentives (handleSubmit h env s) = St.incentives s
    /\ St.weatherData (handleSubmit h env s) = St.weatherData s
    /\ St.historicalWeather (handleSubmit h env s) = St.historicalWeather s
    /\ St.mapCoordinates (handleSubmit h env s) = St.mapCoordinates s.
Proof.
  intros h env s K. unfold handleSubmit. rewrite K. cbn [negb].
  destruct s. repeat split.
Qed.

Lemma submit_without_keys_witness :
  handleSubmit utcHost (envWith (goodResponse 12000))
    (setApiKeyAvailable false
       (filledForm "1 Capitol Mall, Sacramento, CA" (lit 10000))) =
  St.setError "Cannot proceed without API keys."
    (setApiKeyAvailable false
       (filledForm "1 Capitol Mall, Sacramento, CA" (lit 10000))).
Proof.
  apply (submit_without_keys utcHost (envWith (goodResponse 12000))
           (setApiKeyAvailable false
              (filledForm "1 Capitol Mall, Sacramento, CA" (lit 10000)))).
  reflexivity.
Defined.

Lemma handleSubmit_inputsOf (h : Host) (env : Env) (s : St.t) :
  inputsOf (handleSubmit h env s) = inputsOf s.
Proof.
  unfold handleSubmit. destruct (St.apiKeyAvailable s) eqn:K; cbn [negb].
  - rewrite <- (resetResults_inputsOf s).
    apply (@preserves_try_finally unit); [ | intros []; reflexivity ].
    apply preserves_try_catch; [apply preserves_estimation | ].
    intros e. setter_preserves.
  - destruct s. reflexivity.
Qed.

(** X1. A submission never writes the form: address, consumption,
    orientation, tilt and the key flag are after the run what they were
    before it, whatever the collaborators answer; and with the keys
    present the loading flag is off when the run ends, failed or not. *)
Theorem submit_keeps_form :
  forall (h : Host) (env : Env) (s : St.t),
    inputsOf (handleSubmit h env s) = inputsOf s
    /\ (St.apiKeyAvailable s = true -> St.loading (handleSubmit h env s) = false).
Proof.
  intros h env s. split.
  - apply handleSubmit_inputsOf.
  - intros K. unfold handleSubmit. rewrite K. cbn [negb].
    unfold try_finally.
    destruct (try_catch _ _ (resetResults s)) as [r s'].
    destruct s'. reflexivity.
Qed.

Lemma submit_keeps_form_witness :
  St.loading (handleSubmit utcHost (envWith noMonthlyResponse)
                (filledForm "1 Capitol Mall, Sacramento, CA" (lit 10000))) = false.
Proof.
  apply (submit_keeps_form utcHost (envWith noMonthlyResponse)
           (filledForm "1 Capitol Mall, Sacramento, CA" (lit 10000))).
  reflexivity.
Defined.

(** X2. Submitting the same form twice in a row, against the same
    collaborators, leaves the component in the state the first
    submission left it in: nothing of the first run leaks into the
    second. *)
Theorem submit_twice :
  forall (h : Host) (env : Env) (s : St.t),
    handleSubmit h env (handleSubmit h env s) = handleSubmit h env s.
Proof.
  intros h env s.
  pose proof (handleSubmit_inputsOf h env s) as I.
  destruct (St.apiKeyAvailable s) eqn:K.
  - set (s' := handleSubmit h env s) in *.
    assert (E : resetResults s' = resetResults s).
    { unfold inputsOf in I. inversion I.
      apply resetResults_inputs; congruence. }
    unfold inputsOf in I. inversion I as [[Ha Hc Ho Ht Hk]].
    unfold handleSubmit at 1. rewrite Hk, K. cbn [negb].
    rewrite Ha, Hc, Ho, Ht, E.
    subst s'. unfold handleSubmit. rewrite K. reflexivity.
  - unfold handleSubmit. rewrite K. cbn [negb].
    destruct s. cbn in *. rewrite K. reflexivity.
Qed.

(** ** handleSubmit: the three ways a run ends *)

Lemma weatherBranch_result (env : Env) (g : geoResult) (s : St.t) :
  weatherBranch env g s = (inr tt, St.setWeatherData (weatherResult env g) s).
Proof.
  unfold weatherBranch, weatherResult, try_catch, bind, lift, set.
  destruct (currentWeather env (lat g) (lon g)) as [e | w]; [reflexivity | ].
  destruct (main_temp w), (weather w) as [[ | d ds] | ], (clouds_all w);
    reflexivity.
Qed.

Lemma historicalBranch_result (h : Host) (env : Env) (g : geoResult) (s : St.t) :
  historicalBranch h env g s =
  (inr tt, St.setHistoricalWeather (historicalResult h env g) s).
Proof.
  unfold historicalBranch, historicalResult, try_catch, bind, lift, set.
  destruct (oneCall env (lat g) (lon g)) as [e | hd]; [reflexivity | ].
  destruct (daily hd) as [d | ]; [ | reflexivity].
  destruct (processHistoricalWeatherData exactOps h d); reflexivity.
Qed.

Lemma errorText_not_empty (e : exn) : String.eqb (errorText e) "" = false.
Proof.
  unfold errorText. destruct (String.eqb (message e) "") eqn:E.
  - reflexivity.
  - exact E.
Qed.

(** Every run is an early failure, a late failure or a complete run. *)
Lemma outcome_cases (env : Env) (s : St.t) :
  (exists e, earlyFailure env s e)
  \/ (exists e, lateFailure env s e)
  \/ completes env s.
Proof.
  destruct (geocode env (St.address s)) as [e | [ | g gs]] eqn:G.
  - left. exists e. apply fail_geocode. exact G.
  - left. eexists. apply fail_not_found. exact G.
  - destruct (pvwatts env (requestOf s g)) as [e | d] eqn:P.
    + left. exists e. eapply fail_request; eassumption.
    + destruct (checkErrors d) as [e | []] eqn:C.
      * left. exists e. eapply fail_errors; eassumption.
      * destruct (readAnnual d) as [e | annual] eqn:A.
        -- left. exists e. eapply fail_outputs; eassumption.
        -- destruct (chartData d) as [e | chart] eqn:M.
           ++ right. left. exists e, g, gs, d, annual. repeat split; assumption.
           ++ right. right. exists g, gs, d, annual, chart.
              repeat split; try assumption.
              unfold interpretProduction. rewrite C, A, M. reflexivity.
Qed.

(** The optional blocks of a complete run. *)
Lemma handleSubmit_optional (h : Host) (env : Env) (s : St.t)
    (g : geoResult) (gs : list geoResult) (d : nrelData)
    (annual : option num) (chart : list chartEntry) :
  St.apiKeyAvailable s = true ->
  geocode env (St.address s) = inr (g :: gs) ->
  pvwatts env (requestOf s g) = inr d ->
  interpretProduction d = inr (annual, chart) ->
  St.weatherData (handleSubmit h env s) = weatherResult env g
  /\ St.historicalWeather (handleSubmit h env s) = historicalResult h env g.
Proof.
  intros Hkey Hgeo Hpv Hint.
  destruct (interpretProduction_inr _ Hint) as (Hc & Ha & Hm).
  unfold handleSubmit. rewrite Hkey. cbn [negb].
  unfold try_finally, try_catch, estimation, bind, lift, set.
  change (St.address (resetResults s)) with (St.address s).
  change (St.annualConsumption (resetResults s)) with (St.annualConsumption s).
  change (St.orientation (resetResults s)) with (St.orientation s).
  change (St.tilt (resetResults s)) with (St.tilt s).
  rewrite Hgeo. fold (requestOf s g). rewrite Hpv, Hc, Ha.
  destruct (calculateIncentives
              (estimatedCost_of averageCostPerWatt
                 (systemSizeKW (St.annualConsumption s)))
              (stateOfAddress (St.address s))) as [applied total] eqn:Hinc.
  unfold bind, lift, set. rewrite Hm.
  rewrite weatherBranch_result, historicalBranch_result.
  cbn. split; reflexivity.
Qed.

(** X3. With the keys present, a run ends in exactly one of two ways:
    with no error and a cost estimate, or with a non-empty error and
    no cost estimate.  After a failed run the monthly chart, the weather
    and the historical weather are empty as well. *)
Theorem error_or_cost_estimate :
  forall (h : Host) (env : Env) (s : St.t),
    St.apiKeyAvailable s = true ->
    let s' := handleSubmit h env s in
    (failed s' = false <-> St.costEstimate s' <> None)
    /\ (failed s' = true ->
        St.monthlyData s' = [] /\ St.weatherData s' = None
        /\ St.historicalWeather s' = None).
Proof.
  intros h env s K s'. subst s'.
  destruct (outcome_cases env s)
    as [[e F] | [[e (g & gs & d & annual & Hg & Hp & Hc & Ha & Hm)]
                | (g & gs & d & annual & chart & Hg & Hp & Hi)]].
  - destruct (early_failure_populates_nothing h K F)
      as (E & _ & _ & M & C & _ & W & Hh).
    unfold failed. rewrite E, errorText_not_empty, C, M, W, Hh. cbn.
    split; [split; [discriminate | intros N; contradiction] | ].
    intros _. repeat split.
  - destruct (late_failure_keeps_partial_estimate h env s K Hg Hp Hc Ha Hm)
      as (E & _ & _ & _ & M & C).
    assert (O : St.weatherData (handleSubmit h env s) = None
                /\ St.historicalWeather (handleSubmit h env s) = None).
    { unfold handleSubmit. rewrite K. cbn [negb].
      unfold try_finally, try_catch, estimation, bind, lift, set.
      change (St.address (resetResults s)) with (St.address s).
      change (St.annualConsumption (resetResults s))
        with (St.annualConsumption s).
      change (St.orientation (resetResults s)) with (St.orientation s).
      change (St.tilt (resetResults s)) with (St.tilt s).
      rewrite Hg. fold (requestOf s g). rewrite Hp, Hc, Ha.
      destruct (calculateIncentives
                  (estimatedCost_of averageCostPerWatt
                     (systemSizeKW (St.annualConsumption s)))
                  (stateOfAddress (St.address s))) as [applied total].
      unfold bind, lift, set. rewrite Hm. cbn. split; reflexivity. }
    destruct O as [W Hh].
    unfold failed. rewrite E, errorText_not_empty, C, M, W, Hh. cbn.
    split; [split; [discriminate | intros N; contradiction] | ].
    intros _. repeat split.
  - destruct (handleSubmit_complete h env s K Hg Hp Hi)
      as (E & _ & _ & _ & _ & _ & C).
    unfold failed. rewrite E, C. cbn.
    split; [split; [discriminate | reflexivity] | discriminate].
Qed.

Lemma error_or_cost_estimate_witness :
  failed (handleSubmit utcHost (envWith noMonthlyResponse)
            (filledForm "1 Capitol Mall, Sacramento, CA" (lit 10000))) = false
  <-> St.costEstimate
        (handleSubmit utcHost (envWith noMonthlyResponse)
           (filledForm "1 Capitol Mall, Sacramento, CA" (lit 10000))) <> None.
Proof.
  apply (error_or_cost_estimate utcHost (envWith noMonthlyResponse)
           (filledForm "1 Capitol Mall, Sacramento, CA" (lit 10000))).
  reflexivity.
Defined.

(** X4. The weather and the historical weather never decide the
    estimate: two runs of the same form whose collaborators agree on
    geocoding and on the production request end with the same error,
    loading flag, annual estimate, monthly chart, cost estimate,
    incentives and map coordinates, whatever the two weather
    collaborators answer or fail with. *)
Theorem weather_does_not_affect_estimate :
  forall (h : Host) (env env' : Env) (s : St.t),
    St.apiKeyAvailable s = true ->
    (forall a, geocode env' a = geocode env a) ->
    (forall q, pvwatts env' q = pvwatts env q) ->
    mandatoryOf (handleSubmit h env' s) = mandatoryOf (handleSubmit h env s).
Proof.
  intros h env env' s K G P.
  unfold mandatoryOf, handleSubmit. rewrite K. cbn [negb].
  unfold try_finally, try_catch, estimation, bind, lift, set, throw.
  change (St.address (resetResults s)) with (St.address s).
  change (St.annualConsumption (resetResults s)) with (St.annualConsumption s).
  change (St.orientation (resetResults s)) with (St.orientation s).
  change (St.tilt (resetResults s)) with (St.tilt s).
  rewrite G.
  destruct (geocode env (St.address s)) as [e | [ | g gs]]; try reflexivity.
  rewrite P.
  destruct (pvwatts env _) as [e | d]; [reflexivity | ].
  destruct (checkErrors d) as [e | []]; [reflexivity | ].
  destruct (readAnnual d) as [e | annual]; [reflexivity | ].
  destruct (calculateIncentives
              (estimatedCost_of averageCostPerWatt
                 (systemSizeKW (St.annualConsumption s)))
              (stateOfAddress (St.address s))) as [applied total].
  unfold bind, lift, set.
  destruct (chartData d) as [e | chart]; [reflexivity | ].
  rewrite !weatherBranch_result, !historicalBranch_result.
  reflexivity.
Qed.

(** The same form against collaborators whose weather services work
    and against collaborators whose weather services both fail. *)
Lemma weather_does_not_affect_estimate_witness :
  mandatoryOf
    (handleSubmit utcHost
       {| geocode := geocode (envWith (goodResponse 12000));
          pvwatts := pvwatts (envWith (goodResponse 12000));
          currentWeather := fun _ _ => inl (Error "503");
          oneCall := fun _ _ => inl (Error "503") |}
       (filledForm "1 Capitol Mall, Sacramento, CA" (lit 10000))) =
  mandatoryOf
    (handleSubmit utcHost (envWith (goodResponse 12000))
       (filledForm "1 Capitol Mall, Sacramento, CA" (lit 10000))).
Proof.
  apply weather_does_not_affect_estimate; reflexivity.
Defined.

(** X5. Of the geocoding results only the first is used: two runs of
    the same form whose geocoders return lists with the same first
    element, and whose other collaborators are the same, end in the same
    state, however many further results either list has. *)
Theorem only_first_geocoding_result :
  forall (h : Host) (env env' : Env) (s : St.t)
         (g : geoResult) (gs gs' : list geoResult),
    geocode env (St.address s) = inr (g :: gs) ->
    geocode env' (St.address s) = inr (g :: gs') ->
    pvwatts env' = pvwatts env ->
    currentWeather env' = currentWeather env ->
    oneCall env' = oneCall env ->
    handleSubmit h env' s = handleSubmit h env s.
Proof.
  intros h env env' s g gs gs' G G' P W O.
  unfold handleSubmit. destruct (St.apiKeyAvailable s); cbn [negb];
    [ | reflexivity].
  unfold try_finally, try_catch, estimation, bind, lift.
  change (St.address (resetResults s)) with (St.address s).
  rewrite G, G', P.
  unfold weatherBranch, historicalBranch. rewrite W, O. reflexivity.
Qed.

(** The sample geocoder, and one that returns a second match. *)
Lemma only_first_geocoding_result_witness :
  handleSubmit utcHost
    {| geocode := fun _ => inr [sacramento; {| lat := "0"; lon := "0" |}];
       pvwatts := pvwatts (envWith (goodResponse 12000));
       currentWeather := currentWeather (envWith (goodResponse 12000));
       oneCall := oneCall (envWith (goodResponse 12000)) |}
    (filledForm "1 Capitol Mall, Sacramento, CA" (lit 10000)) =
  handleSubmit utcHost (envWith (goodResponse 12000))
    (filledForm "1 Capitol Mall, Sacramento, CA" (lit 10000)).
Proof.
  apply (@only_first_geocoding_result utcHost (envWith (goodResponse 12000))
           _ _ sacramento [] [ {| lat := "0"; lon := "0" |} ]);
    reflexivity.
Defined.

(** ** Climate aggregation: when it fails *)

Section AnyArithmeticFailure.

Variable N : Type.
Variable o : Ops N.
Variable h : Host.

Lemma invalidDate_month (d : dailySample N) :
  validDate o d = false -> monthOf o h d = None.
Proof.
  unfold validDate, monthOf, getMonth.
  destruct (TimeClip (exact o (times o (dt d) (ofZ o 1000))));
    [discriminate | reflexivity].
Qed.

Lemma forEachDay_invalid (l : list (dailySample N)) :
  forall acc,
    List.length acc = 12%nat ->
    (exists d, In d l /\ validDate o d = false) ->
    forEachDay o h l acc = inl (undefinedProperty "temperature").
Proof.
  induction l as [ | d l IH]; intros acc Hlen (d0 & Hin & Hbad).
  - destruct Hin.
  - cbn [forEachDay]. destruct (validDate o d) eqn:V.
    + destruct (validDate_month o h d V) as (m & Hm & Hrange).
      rewrite addDay_slot. unfold slotOf. rewrite Hm, Hlen.
      replace ((0 <=? m)%Z && (m <? Z.of_nat 12)%Z) with true
        by (symmetry; apply andb_true_iff; split;
            [apply Z.leb_le | apply Z.ltb_lt]; lia).
      apply IH; [rewrite update_nth_length; exact Hlen | ].
      exists d0. split; [ | exact Hbad].
      destruct Hin as [<- | Hin]; [congruence | exact Hin].
    + unfold addDay. rewrite (invalidDate_month d V). reflexivity.
Qed.

Lemma process_valid (l : list (dailySample N)) :
  (forall d, In d l -> validDate o d = true) ->
  exists rows,
    processHistoricalWeatherData o h l = inr rows
    /\ List.length rows = 12%nat
    /\ map Row.month rows = map Some monthNames.
Proof.
  intros V. unfold processHistoricalWeatherData.
  destruct (@forEachDay_rows N o h l (repeat (Acc.zero o) 12) eq_refl V)
    as (acc' & E & L & _).
  rewrite E. eexists. split; [reflexivity | ].
  split; [unfold mapi; rewrite mapi_from_length; exact L | ].
  do 13 (destruct acc' as [ | ? acc']; try discriminate L).
  reflexivity.
Qed.

Lemma process_invalid (l : list (dailySample N)) :
  (exists d, In d l /\ validDate o d = false) ->
  processHistoricalWeatherData o h l = inl (undefinedProperty "temperature").
Proof.
  intros B. unfold processHistoricalWeatherData.
  rewrite (forEachDay_invalid l (repeat (Acc.zero o) 12) eq_refl B).
  reflexivity.
Qed.

End AnyArithmeticFailure.

(** X6. Whatever the arithmetic, the aggregation succeeds exactly when
    every sample has a representable date: then it returns twelve rows
    named Jan to Dec; and as soon as one sample has none it throws,
    wherever that sample stands in the input, always the same
    [TypeError] (reading 'temperature' of undefined), and returns no
    row at all. *)
Theorem climate_fails_on_invalid_date :
  forall (N : Type) (o : Ops N) (h : Host) (l : list (dailySample N)),
    ((forall d, In d l -> validDate o d = true) ->
     exists rows,
       processHistoricalWeatherData o h l = inr rows
       /\ List.length rows = 12%nat
       /\ map Row.month rows = map Some monthNames)
    /\ ((exists d, In d l /\ validDate o d = false) ->
        processHistoricalWeatherData o h l =
          inl (TypeError
                 "Cannot read properties of undefined (reading 'temperature')")).
Proof.
  intros N o h l. split.
  - apply process_valid.
  - apply process_invalid.
Qed.

(** Three good days followed by one whose timestamp is 10^13 seconds. *)
Lemma climate_fails_on_invalid_date_witness :
  processHistoricalWeatherData exactOps utcHost
    (fourDays ++ [ {| dt := lit 10000000000000; temp_day := lit 20;
                      uvi := lit 5 |} ]) =
    inl (TypeError
           "Cannot read properties of undefined (reading 'temperature')").
Proof.
  apply (climate_fails_on_invalid_date exactOps utcHost).
  eexists. split.
  - apply in_or_app. right. left. reflexivity.
  - vm_compute. reflexivity.
Defined.

(** ** handleSubmit: the optional blocks *)

(** X7. In a run whose mandatory steps succeed no error is shown,
    whatever the weather services do.  The current weather is stored
    exactly when the service answers with [main], a non-empty [weather]
    list and [clouds]; it is left empty when the service throws.  The
    historical weather is left empty when the service throws, when the
    answer has no [daily], and when a daily sample has no representable
    date; it holds twelve rows when [daily] is present and every sample
    has one. *)
Theorem optional_blocks_absorb_failures :
  forall (h : Host) (env : Env) (s : St.t)
         (g : geoResult) (gs : list geoResult) (d : nrelData)
         (annual : option num) (chart : list chartEntry),
    St.apiKeyAvailable s = true ->
    geocode env (St.address s) = inr (g :: gs) ->
    pvwatts env (requestOf s g) = inr d ->
    interpretProduction d = inr (annual, chart) ->
    let s' := handleSubmit h env s in
    failed s' = false
    /\ (forall e, currentWeather env (lat g) (lon g) = inl e ->
          St.weatherData s' = None)
    /\ (forall w, currentWeather env (lat g) (lon g) = inr w ->
          (St.weatherData s' <> None <->
           main_temp w <> None
           /\ (exists x xs, weather w = Some (x :: xs))
           /\ clouds_all w <> None))
    /\ (forall e, oneCall env (lat g) (lon g) = inl e ->
          St.historicalWeather s' = None)
    /\ (oneCall env (lat g) (lon g) = inr {| daily := None |} ->
          St.historicalWeather s' = None)
    /\ (forall days,
          oneCall env (lat g) (lon g) = inr {| daily := Some days |} ->
          (exists x, In x days /\ validDate exactOps x = false) ->
          St.historicalWeather s' = None)
    /\ (forall days,
          oneCall env (lat g) (lon g) = inr {| daily := Some days |} ->
          (forall x, In x days -> validDate exactOps x = true) ->
          exists rows,
            St.historicalWeather s' = Some rows
            /\ processHistoricalWeatherData exactOps h days = inr rows
            /\ List.length rows = 12%nat).
Proof.
  intros h env s g gs d annual chart K Hg Hp Hi s'. subst s'.
  destruct (handleSubmit_complete h env s K Hg Hp Hi) as (E & _).
  destruct (handleSubmit_optional h env s K Hg Hp Hi) as (W & Hh).
  split; [unfold failed; rewrite E; reflexivity | ].
  rewrite W, Hh. unfold weatherResult, historicalResult.
  split; [intros e ->; reflexivity | ].
  split.
  { intros w ->.
    destruct (main_temp w), (weather w) as [[ | x xs] | ], (clouds_all w); split;
      try (intros _; repeat split; try discriminate; eexists; eexists; reflexivity);
      try (intros (A & (y & ys & B) & C); congruence);
      try (intros A; contradiction). }
  split; [intros e ->; reflexivity | ].
  split; [intros ->; reflexivity | ].
  split.
  - intros days -> B. cbn [daily].
    rewrite (process_invalid exactOps h days B).
    reflexivity.
  - intros days -> V. cbn [daily].
    destruct (process_valid exactOps h days V) as (rows & R & L & _).
    rewrite R. exists rows. repeat split; assumption.
Qed.

(** The sample collaborators: the current weather cannot be fetched
    and the historical weather has four good days. *)
Lemma optional_blocks_absorb_failures_witness :
  let s' := handleSubmit utcHost (envWith (goodResponse 12000))
              (filledForm "1 Capitol Mall, Sacramento, CA" (lit 10000)) in
  failed s' = false
  /\ St.weatherData s' = None
  /\ exists rows, St.historicalWeather s' = Some rows
                  /\ List.length rows = 12%nat.
Proof.
  destruct (@optional_blocks_absorb_failures utcHost
              (envWith (goodResponse 12000))
              (filledForm "1 Capitol Mall, Sacramento, CA" (lit 10000))
              sacramento [] (goodResponse 12000) (Some (lit 12000))
              (mapi (fun value index =>
                       {| name := nth_error monthNames index;
                          production := round value |}) twelveMonths)
              eq_refl eq_refl eq_refl eq_refl)
    as (F & W & _ & _ & _ & _ & Hh).
  split; [exact F | ].
  split; [apply (W (TypeError "Failed to fetch")); reflexivity | ].
  destruct (Hh fourDays eq_refl) as (rows & R & _ & L).
  - intros x Hx. cbn in Hx.
    repeat (destruct Hx as [<- | Hx]; [vm_compute; reflexivity | ]).
    destruct Hx.
  - exists rows. split; assumption.
Defined.

(** ** What is on the page after a submission *)

Lemma handleSubmit_key (h : Host) (env : Env) (s : St.t) :
  St.apiKeyAvailable (handleSubmit h env s) = St.apiKeyAvailable s.
Proof.
  pose proof (handleSubmit_inputsOf h env s) as I.
  unfold inputsOf in I. congruence.
Qed.

(** X8. What the page shows after a submission made with the keys
    present.  After a failure before the annual figure is read: the
    error and no results card.  After a failure at the monthly series:
    the error and, with it, the results card, holding the annual estimate
    with an empty chart and no cost block.  After a complete run: no
    error and the results card with the cost block and the chart. *)
Theorem page_after_submit :
  forall (h : Host) (env : Env) (s : St.t),
    St.apiKeyAvailable s = true ->
    let s' := handleSubmit h env s in
    (forall e, earlyFailure env s e ->
       render s' = Page (Some (errorText e)) None)
    /\ (forall e, lateFailure env s e ->
          exists card,
            render s' = Page (Some (errorText e)) (Some card)
            /\ shownChart card = []
            /\ shownCost card = None
            /\ shownPayback card = None)
    /\ (completes env s ->
          exists card,
            render s' = Page None (Some card)
            /\ shownChart card = St.monthlyData s'
            /\ shownCost card <> None
            /\ shownPayback card <> None).
Proof.
  intros h env s K s'. subst s'.
  pose proof (handleSubmit_key h env s) as K'. rewrite K in K'.
  unfold render. rewrite K'. cbn [negb].
  split; [ | split ].
  - intros e F.
    destruct (early_failure_populates_nothing h K F) as (E & _ & Es & _).
    rewrite E, Es, errorText_not_empty. reflexivity.
  - intros e (g & gs & d & annual & Hg & Hp & Hc & Ha & Hm).
    destruct (late_failure_keeps_partial_estimate h env s K Hg Hp Hc Ha Hm)
      as (E & _ & Es & _ & M & C).
    rewrite E, Es, errorText_not_empty.
    eexists. split; [reflexivity | ].
    cbn [shownChart shownCost shownPayback]. rewrite M, C.
    repeat split.
  - intros (g & gs & d & annual & chart & Hg & Hp & Hi).
    destruct (handleSubmit_complete h env s K Hg Hp Hi)
      as (E & _ & _ & Es & _ & _ & C).
    rewrite E, Es. cbn [String.eqb].
    eexists. split; [reflexivity | ].
    cbn [shownChart shownCost shownPayback]. rewrite C.
    repeat split; discriminate.
Qed.

(** The late failure of the sample collaborators. *)
Lemma page_after_submit_witness :
  exists card,
    render (handleSubmit utcHost (envWith noMonthlyResponse)
              (filledForm "1 Capitol Mall, Sacramento, CA" (lit 10000))) =
      Page (Some "Cannot read properties of undefined (reading 'map')")
           (Some card)
    /\ shownChart card = []
    /\ shownCost card = None
    /\ shownPayback card = None.
Proof.
  destruct (page_after_submit utcHost (envWith noMonthlyResponse)
              (filledForm "1 Capitol Mall, Sacramento, CA" (lit 10000))
              eq_refl) as (_ & L & _).
  apply (L (undefinedProperty "map")).
  exists sacramento, [], noMonthlyResponse, (Some (lit 12000)).
  repeat split.
Defined.

(** ** A missing API key *)

Lemma mountEffect_missing (k1 k2 : option string) (s : St.t) :
  truthy k1 && truthy k2 = false ->
  mountEffect k1 k2 s =
    St.setError
      "API key is not available. Please check your environment configuration."
      (setApiKeyAvailable false s).
Proof.
  intros H. unfold mountEffect.
  destruct (truthy k1), (truthy k2); try discriminate H; reflexivity.
Qed.

(** X9. When one of the two API keys is missing or empty at mount, the
    component is locked: after any number of submissions, against any
    collaborators, the page is the key error alone, an error message is
    stored, the loading flag is off and no result cell has been written.
    When both keys are present the effect changes nothing. *)
Theorem missing_key_locks_component :
  forall (k1 k2 : option string) (h : Host) (envs : list Env),
    (truthy k1 && truthy k2 = false ->
     let s := fold_left (fun s env => handleSubmit h env s) envs
                (mountEffect k1 k2 initialState) in
     render s = KeysMissing
     /\ String.eqb (St.error s) "" = false
     /\ St.loading s = false
     /\ St.estimate s = None
     /\ St.monthlyData s = []
     /\ St.costEstimate s = None
     /\ St.incentives s = []
     /\ St.weatherData s = None
     /\ St.historicalWeather s = None
     /\ St.mapCoordinates s = None)
    /\ (truthy k1 && truthy k2 = true ->
        mountEffect k1 k2 initialState = initialState).
Proof.
  intros k1 k2 h envs. split.
  - intros H. rewrite (mountEffect_missing k1 k2 initialState H).
    set (locked := fun s : St.t =>
           St.apiKeyAvailable s = false
           /\ String.eqb (St.error s) "" = false
           /\ St.loading s = false /\ St.estimate s = None
           /\ St.monthlyData s = [] /\ St.costEstimate s = None
           /\ St.incentives s = [] /\ St.weatherData s = None
           /\ St.historicalWeather s = None /\ St.mapCoordinates s = None).
    assert (Step : forall s env, locked s -> locked (handleSubmit h env s)).
    { intros s env (A & _ & B). unfold handleSubmit. rewrite A. cbn [negb].
      destruct s. cbn in *. repeat split; try tauto. }
    assert (All : forall l s, locked s ->
              locked (fold_left (fun s env => handleSubmit h env s) l s)).
    { induction l as [ | env l IH]; intros s L; [exact L | ].
      cbn [fold_left]. apply IH, Step, L. }
    destruct (All envs
                (St.setError
                   "API key is not available. Please check your environment configuration."
                   (setApiKeyAvailable false initialState)))
      as (A & B).
    { repeat split. }
    cbn zeta. split; [unfold render; rewrite A; reflexivity | exact B].
  - intros H. unfold mountEffect.
    destruct (truthy k1), (truthy k2); try discriminate H; reflexivity.
Qed.

(** The weather key is set and the NREL key is not; two submissions. *)
Lemma missing_key_locks_component_witness :
  render (fold_left (fun s env => handleSubmit utcHost env s)
            [envWith (goodResponse 12000); envWith noMonthlyResponse]
            (mountEffect None (Some "0123456789abcdef") initialState)) =
  KeysMissing.
Proof.
  apply (missing_key_locks_component None (Some "0123456789abcdef") utcHost
           [envWith (goodResponse 12000); envWith noMonthlyResponse]).
  reflexivity.
Defined.

(** ** The three-step form *)

Lemma click_range (step : Z) (c : control) :
  (1 <= step <= 3)%Z -> (1 <= click step c <= 3)%Z.
Proof.
  intros R. unfold click, rendered, totalSteps.
  destruct c.
  - destruct (1 <? step)%Z eqn:E; [apply Z.ltb_lt in E | ]; lia.
  - destruct (step <? 3)%Z eqn:E; [apply Z.ltb_lt in E | ]; lia.
  - destruct (negb (step <? 3)%Z); lia.
Qed.

(** X10. Whatever buttons are clicked, in whatever order, starting
    from the first step: the current step stays between 1 and 3,
    [renderStep] never falls into its default case, the submit button is
    on the page exactly on step 3 and the Next button exactly on the
    other steps. *)
Theorem form_stays_on_its_steps :
  forall clicks : list control,
    let step := fold_left click clicks 1%Z in
    (1 <= step <= 3)%Z
    /\ renderStep step <> None
    /\ (rendered step SubmitButton = true <-> step = 3%Z)
    /\ (rendered step NextButton = true <-> step <> 3%Z)
    /\ (rendered step PreviousButton = true <-> step <> 1%Z).
Proof.
  intros clicks step.
  assert (R : (1 <= step <= 3)%Z).
  { subst step.
    assert (G : forall l s, (1 <= s <= 3)%Z ->
              (1 <= fold_left click l s <= 3)%Z).
    { induction l as [ | c l IH]; intros s Hs; [exact Hs | ].
      cbn [fold_left]. apply IH, click_range, Hs. }
    apply G. lia. }
  split; [exact R | ].
  assert (C : step = 1%Z \/ step = 2%Z \/ step = 3%Z) by lia.
  destruct C as [-> | [-> | ->]]; cbn; repeat split;
    try discriminate; try reflexivity; try lia; intros; try discriminate;
    try congruence.
Qed.

(** ** Panels *)

Lemma mul_fin (a b : Qc) : (Fin a * Fin b)%js = Fin (a * b).
Proof. reflexivity. Qed.


Example panels_examples :
  recommendedPanels (systemSizeKW (lit 10000)) = of_Z 27
  /\ recommendedPanels (lit 0.35) = of_Z 1
  /\ recommendedPanels (lit 0.351) = of_Z 2
  /\ recommendedPanels (lit 0) = of_Z 0
  /\ recommendedPanels (lit (-1)) = of_Z (-2).
Proof. vm_compute. repeat split. Qed.

(** ** The incentives of the catalog of the source *)

Lemma findIncentives_CA : findIncentives "CA" = firstn 2 incentivesDatabase.
Proof. reflexivity. Qed.

Lemma findIncentives_NY : findIncentives "NY" = skipn 2 incentivesDatabase.
Proof. reflexivity. Qed.

Lemma findIncentives_other (st : string) :
  st <> "CA" -> st <> "NY" -> findIncentives st = [].
Proof.
  intros C Y. unfold findIncentives, findIncentives_in, incentivesDatabase.
  cbn [filter state].
  assert (EC : String.eqb "CA" st = false)
    by (apply String.eqb_neq; congruence).
  assert (EY : String.eqb "NY" st = false)
    by (apply String.eqb_neq; congruence).
  rewrite EC, EY. reflexivity.
Qed.

Lemma total_CA (c : Qc) :
  snd (calculateIncentives (Fin c) "CA") = Fin (Q2Qc 1000 + c * Q2Qc 0.30).
Proof.
  unfold calculateIncentives, calculateIncentives_in.
  change (findIncentives_in incentivesDatabase "CA") with (findIncentives "CA").
  rewrite findIncentives_CA.
  cbn [firstn incentivesDatabase applyIncentives incentiveAmount type amount snd].
  unfold lit, of_Q. cbn [add mul]. rewrite Qcplus_0_l. reflexivity.
Qed.

Lemma total_NY (c : Qc) :
  snd (calculateIncentives (Fin c) "NY") = Fin (Q2Qc 5000 + c * Q2Qc 0.25).
Proof.
  unfold calculateIncentives, calculateIncentives_in.
  change (findIncentives_in incentivesDatabase "NY") with (findIncentives "NY").
  rewrite findIncentives_NY.
  cbn [skipn incentivesDatabase applyIncentives incentiveAmount type amount snd].
  unfold lit, of_Q. cbn [add mul]. rewrite Qcplus_0_l. reflexivity.
Qed.

Lemma calculate_other (cost : num) (st : string) :
  st <> "CA" -> st <> "NY" -> calculateIncentives cost st = ([], lit 0).
Proof.
  intros C Y. unfold calculateIncentives, calculateIncentives_in.
  change (findIncentives_in incentivesDatabase st) with (findIncentives st).
  rewrite (findIncentives_other C Y). reflexivity.
Qed.

Lemma sub_0_r (x : num) : (x - lit 0)%js = x.
Proof.
  destruct x; try reflexivity.
  unfold sub, neg, lit, of_Q. cbn [add]. f_equal. ring.
Qed.



Lemma total_cases (c : Qc) (st : string) :
  Q2Qc 0 <= c ->
  exists t : Qc,
    snd (calculateIncentives (Fin c) st) = Fin t /\ Q2Qc 0 <= t.
Proof.
  intros Hc.
  destruct (String.eqb st "CA") eqn:C.
  - apply String.eqb_eq in C. subst st. eexists. split; [apply total_CA | ].
    qc_lra.
  - destruct (String.eqb st "NY") eqn:Y.
    + apply String.eqb_eq in Y. subst st. eexists. split; [apply total_NY | ].
      qc_lra.
    + apply String.eqb_neq in C, Y. rewrite (calculate_other (Fin c) C Y).
      exists (Q2Qc 0). split; [reflexivity | apply Qcle_refl].
Qed.



(** ** Values that are not numbers *)

Lemma div_NaN_r (x : num) : (x / NaN)%js = NaN.
Proof. destruct x; reflexivity. Qed.

Lemma mul_NaN_r (x : num) : (x * NaN)%js = NaN.
Proof. destruct x; reflexivity. Qed.

Lemma sub_NaN_l (x : num) : (NaN - x)%js = NaN.
Proof. destruct x; reflexivity. Qed.

(** X14. A production response that has the monthly series and no
    annual figure does not fail: the run completes, the annual estimate
    and the annual savings are stored as [NaN], the payback period is
    stored as "Infinity" and shown as "N/A (no savings calculated)", and
    the adjusted payback period is stored as "NaN" and shown as
    "NaN years". *)
Theorem missing_annual_figure :
  forall (h : Host) (env : Env) (s : St.t) (g : geoResult)
         (gs : list geoResult) (errs : option (list string)) (l : list num),
    St.apiKeyAvailable s = true ->
    geocode env (St.address s) = inr (g :: gs) ->
    pvwatts env (requestOf s g) =
      inr {| errors := errs;
             outputs := Some {| ac_annual := None; ac_monthly := Some l |} |} ->
    errs = None \/ errs = Some [] ->
    let s' := handleSubmit h env s in
    failed s' = false
    /\ St.estimate s' = Some NaN
    /\ List.length (St.monthlyData s') = List.length l
    /\ exists c,
         St.costEstimate s' = Some c
         /\ Cost.annualSavings c = NaN
         /\ Cost.recommendedProduction c = NaN
         /\ Cost.paybackPeriod c = "Infinity"
         /\ Cost.adjustedPaybackPeriod c = "NaN"
         /\ paybackText (Cost.paybackPeriod c) = "N/A (no savings calculated)"
         /\ paybackText (Cost.adjustedPaybackPeriod c) = "NaN years".
Proof.
  intros h env s g gs errs l K Hg Hp He s'. subst s'.
  set (d := {| errors := errs;
               outputs := Some {| ac_annual := None; ac_monthly := Some l |} |})
    in *.
  assert (Hi : interpretProduction d =
               inr (None, mapi (fun value index =>
                                  {| name := nth_error monthNames index;
                                     production := round value |}) l)).
  { unfold interpretProduction, checkErrors, d. cbn [errors].
    destruct He as [-> | ->]; reflexivity. }
  destruct (handleSubmit_complete h env s K Hg Hp Hi)
    as (E & _ & _ & Es & Em & _ & C).
  split; [unfold failed; rewrite E; reflexivity | ].
  split; [rewrite Es; reflexivity | ].
  split; [rewrite Em; unfold mapi; apply mapi_from_length | ].
  eexists. split; [exact C | ].
  cbn [toNumber]. unfold annualSavings_of, paybackPeriod, adjustedPaybackPeriod.
  cbn [mul gt compare]. rewrite div_NaN_r.
  cbn. repeat split.
Qed.

Lemma missing_annual_figure_witness :
  St.estimate
    (handleSubmit utcHost
       (envWith {| errors := None;
                   outputs := Some {| ac_annual := None;
                                      ac_monthly := Some twelveMonths |} |})
       (filledForm "1 Capitol Mall, Sacramento, CA" (lit 10000))) = Some NaN.
Proof.
  apply (@missing_annual_figure utcHost
           (envWith {| errors := None;
                       outputs := Some {| ac_annual := None;
                                          ac_monthly := Some twelveMonths |} |})
           (filledForm "1 Capitol Mall, Sacramento, CA" (lit 10000))
           sacramento [] None twelveMonths eq_refl eq_refl eq_refl
           (or_introl eq_refl)).
Defined.



(** ** The region code of an address *)

Lemma split_not_nil (sep : ascii) (s : string) : split sep s <> [].
Proof.
  destruct s as [ | c s]; cbn [split]; [discriminate | ].
  destruct (Ascii.eqb c sep); [discriminate | ].
  destruct (split sep s); discriminate.
Qed.

(** Splitting at a separator splits the two sides. *)
Lemma split_app (sep : ascii) (a b : string) :
  split sep (a ++ String sep b) = (split sep a ++ split sep b)%list.
Proof.
  induction a as [ | c a IH]; cbn [append split].
  - rewrite Ascii.eqb_refl. reflexivity.
  - destruct (Ascii.eqb c sep).
    + rewrite IH. reflexivity.
    + rewrite IH. destruct (split sep a) as [ | t ts] eqn:E.
      * exfalso. exact (split_not_nil sep a E).
      * reflexivity.
Qed.

Lemma split_lacks (sep : ascii) (s : string) :
  lacks sep s = true -> split sep s = [s].
Proof.
  induction s as [ | c s IH]; cbn [lacks split]; [reflexivity | ].
  intros H. apply andb_true_iff in H. destruct H as [H1 H2].
  apply negb_true_iff in H1. rewrite H1, (IH H2). reflexivity.
Qed.

Lemma last_app_r {A : Type} (l1 l2 : list A) (d : A) :
  l2 <> [] -> last (l1 ++ l2) d = last l2 d.
Proof.
  intros H. induction l1 as [ | x l1 IH]; [reflexivity | ].
  cbn [app]. destruct (l1 ++ l2)%list eqn:E.
  - destruct l1; [contradiction | discriminate].
  - rewrite <- IH. reflexivity.
Qed.

(** Every string is free of the character or has a last occurrence of
    it. *)
Lemma last_occurrence (c : ascii) (s : string) :
  lacks c s = true
  \/ exists a b, s = a ++ String c b /\ lacks c b = true.
Proof.
  induction s as [ | x s IH]; [left; reflexivity | ].
  destruct IH as [L | (a & b & -> & L)].
  - cbn [lacks]. destruct (Ascii.eqb x c) eqn:E.
    + right. apply Ascii.eqb_eq in E. subst x.
      exists EmptyString, s. split; [reflexivity | exact L].
    + left. rewrite L. reflexivity.
  - right. exists (String x a), b. split; [reflexivity | exact L].
Qed.


Example region_code_examples :
  stateOfAddress "1 Capitol Mall, Sacramento, CA" = "CA"
  /\ stateOfAddress "1 Capitol Mall, Sacramento, CA 95814" = "CA 95814"
  /\ stateOfAddress "1 Capitol Mall, Sacramento, ca" = "ca"
  /\ stateOfAddress "Sacramento" = "Sacramento"
  /\ stateOfAddress "Sacramento, CA," = ""
  /\ findIncentives (stateOfAddress "1 Capitol Mall, Sacramento, CA 95814") = [].
Proof. vm_compute. repeat split. Qed.

Lemma lacks_trimStart (c : ascii) (s : string) :
  lacks c s = true -> lacks c (trimStart s) = true.
Proof.
  induction s as [ | x s IH]; [reflexivity | ].
  intros H. cbn [trimStart]. destruct (isWhiteSpace x); [ | exact H].
  apply IH. cbn [lacks] in H. apply andb_true_iff in H. tauto.
Qed.

Lemma lacks_forallb (c : ascii) (s : string) :
  lacks c s = forallb (fun x => negb (Ascii.eqb x c)) (list_ascii_of_string s).
Proof.
  induction s as [ | x s IH]; [reflexivity | ].
  cbn [lacks list_ascii_of_string forallb]. rewrite IH. reflexivity.
Qed.

Lemma lacks_reverse (c : ascii) (s : string) :
  lacks c s = true -> lacks c (reverse s) = true.
Proof.
  unfold reverse. rewrite !lacks_forallb, list_ascii_of_string_of_list_ascii.
  rewrite !forallb_forall. intros H x Hx. apply H, in_rev. exact Hx.
Qed.

Lemma lacks_trim (c : ascii) (s : string) :
  lacks c s = true -> lacks c (trim s) = true.
Proof.
  intros H. unfold trim.
  apply lacks_reverse, lacks_trimStart, lacks_reverse, lacks_trimStart, H.
Qed.

Lemma split_tokens_lack (sep : ascii) (s : string) :
  Forall (fun t => lacks sep t = true) (split sep s).
Proof.
  induction s as [ | c s IH]; cbn [split].
  - constructor; [reflexivity | constructor].
  - destruct (Ascii.eqb c sep) eqn:E.
    + constructor; [reflexivity | exact IH].
    + destruct (split sep s) as [ | t ts]; inversion IH; subst.
      * constructor; [cbn [lacks]; rewrite E; reflexivity | constructor].
      * constructor; [ | assumption].
        cbn [lacks]. rewrite E. cbn [negb andb]. assumption.
Qed.

Lemma last_Forall {A : Type} (P : A -> Prop) (l : list A) (d : A) :
  Forall P l -> P d -> P (last l d).
Proof.
  induction 1 as [ | x l Hx Hl IH]; intros Hd; [exact Hd | ].
  cbn [last]. destruct l; [exact Hx | apply IH, Hd].
Qed.

Lemma startsClean_trimStart (s : string) : startsClean (trimStart s) = true.
Proof.
  induction s as [ | c s IH]; [reflexivity | ].
  cbn [trimStart]. destruct (isWhiteSpace c) eqn:E; [exact IH | ].
  cbn [startsClean]. rewrite E. reflexivity.
Qed.

Lemma string_of_list_ascii_app (l1 l2 : list ascii) :
  string_of_list_ascii (l1 ++ l2) =
  string_of_list_ascii l1 ++ string_of_list_ascii l2.
Proof.
  induction l1 as [ | c l1 IH]; [reflexivity | ].
  cbn [app string_of_list_ascii append]. rewrite IH. reflexivity.
Qed.

Lemma list_ascii_of_string_app (s1 s2 : string) :
  list_ascii_of_string (s1 ++ s2) =
  (list_ascii_of_string s1 ++ list_ascii_of_string s2)%list.
Proof.
  induction s1 as [ | c s1 IH]; [reflexivity | ].
  cbn [append list_ascii_of_string app]. rewrite IH. reflexivity.
Qed.

Lemma reverse_cons (c : ascii) (s : string) :
  reverse (String c s) = reverse s ++ String c EmptyString.
Proof.
  unfold reverse. cbn [list_ascii_of_string rev].
  apply string_of_list_ascii_app.
Qed.

Lemma reverse_snoc (c : ascii) (s : string) :
  reverse (s ++ String c EmptyString) = String c (reverse s).
Proof.
  unfold reverse. rewrite list_ascii_of_string_app.
  cbn [list_ascii_of_string]. rewrite rev_app_distr. reflexivity.
Qed.

Lemma reverse_involutive (s : string) : reverse (reverse s) = s.
Proof.
  unfold reverse. rewrite list_ascii_of_string_of_list_ascii, rev_involutive.
  apply string_of_list_ascii_of_string.
Qed.

Lemma trimStart_snoc (c : ascii) (s : string) :
  isWhiteSpace c = false ->
  trimStart (s ++ String c EmptyString) = trimStart s ++ String c EmptyString.
Proof.
  intros H. induction s as [ | x s IH]; cbn [append trimStart].
  - rewrite H. reflexivity.
  - destruct (isWhiteSpace x); [exact IH | reflexivity].
Qed.

Lemma startsClean_trim (s : string) : startsClean (trim s) = true.
Proof.
  unfold trim. pose proof (startsClean_trimStart s) as H.
  destruct (trimStart s) as [ | c t]; [reflexivity | ].
  cbn [startsClean] in H. apply negb_true_iff in H.
  rewrite reverse_cons, (@trimStart_snoc c (reverse t) H), reverse_snoc.
  cbn [startsClean]. rewrite H. reflexivity.
Qed.

(** X17. The region code never contains a comma and never begins or
    ends with white space (space, tab, line feed, vertical tab, form feed,
    carriage return), whatever the address. *)
Theorem region_code_is_clean :
  forall address : string,
    lacks "," (stateOfAddress address) = true
    /\ startsClean (stateOfAddress address) = true
    /\ startsClean (reverse (stateOfAddress address)) = true.
Proof.
  intros address. unfold stateOfAddress. split; [ | split ].
  - apply lacks_trim.
    apply (@last_Forall string (fun t => lacks "," t = true)
             (split "," address) EmptyString);
      [apply split_tokens_lack | reflexivity].
  - apply startsClean_trim.
  - unfold trim. rewrite reverse_involutive. apply startsClean_trimStart.
Qed.

(** ** The payback lines of the cost card *)

Lemma string_of_nonneg_head (n : Z) :
  exists c rest,
    string_of_nonneg n = String c rest /\ c <> "I"%char /\ c <> "N"%char.
Proof.
  unfold string_of_nonneg, NilZero.string_of_uint.
  destruct (N.to_uint (Z.to_N n)); cbn [NilEmpty.string_of_uint];
    eexists; eexists; (split; [reflexivity | split; discriminate]).
Qed.

Lemma fixed_digits_head (n : Z) :
  exists c rest,
    fixed_digits 1 n = String c rest /\ c <> "I"%char /\ c <> "N"%char.
Proof.
  unfold fixed_digits.
  destruct (string_of_nonneg_head n) as (c & rest & -> & HI & HN).
  destruct rest as [ | c2 r2].
  - cbn. eexists. eexists. split; [reflexivity | split; discriminate].
  - cbn [String.length Nat.sub zeros append].
    replace (S (S (String.length r2)) - 1)%nat with (S (String.length r2))
      by lia.
    cbn [substring append].
    eexists. eexists. split; [reflexivity | split; assumption].
Qed.

Lemma toFixed_head (h : Host) (q : Qc) :
  (forall a, NumberToString h a <> "Infinity") ->
  toFixed h 1 (Fin q) <> "Infinity".
Proof.
  intros Hh. unfold toFixed.
  destruct (Qc_ltb q (Q2Qc 0)).
  - destruct (Qc_ltb (Qc_abs q) (Q2Qc (inject_Z (10 ^ 21))));
      cbn [append]; discriminate.
  - cbn [append].
    destruct (Qc_ltb (Qc_abs q) (Q2Qc (inject_Z (10 ^ 21)))).
    + destruct (fixed_digits_head (nearest_scaled 1 (Qc_abs q)))
        as (c & rest & -> & HI & _).
      intros E. inversion E. contradiction.
    + apply Hh.
Qed.

Lemma reverse_app (s1 s2 : string) :
  reverse (s1 ++ s2) = reverse s2 ++ reverse s1.
Proof.
  unfold reverse. rewrite list_ascii_of_string_app, rev_app_distr.
  apply string_of_list_ascii_app.
Qed.

Lemma paybackText_not_available (p : string) :
  paybackText p = "N/A (no savings calculated)" <-> p = "Infinity".
Proof.
  unfold paybackText. destruct (String.eqb p "Infinity") eqn:E.
  - apply String.eqb_eq in E. tauto.
  - apply String.eqb_neq in E. split; [ | intros; contradiction].
    intros H. exfalso.
    apply (f_equal reverse) in H. rewrite reverse_app in H.
    vm_compute in H. discriminate H.
Qed.


